(** * steps-cache-download: archive retrieval and extraction engine

    A shallow embedding of the Go sources of the cache-pull step
    ([archive.go], the two generations of [main.go]) together with the
    properties its specification states about them.

    Layout: Part I holds the definitions (byte streams and the [io.Reader]
    interface, the restorable reader, the archive sniffer, the path
    functions, the operating-system model and the two [main.go] programs);
    Part II holds the lemmas and theorems. *)

From Stdlib Require Import Strings.Byte Strings.Ascii Strings.String.
From stdpp Require Import base option list strings gmap pretty.

Set Default Proof Using "Type".
Local Open Scope Z_scope.

(* ===================================================================== *)
(** * Part I: definitions *)
(* ===================================================================== *)

(** ** Go values shared by every file *)

#[global] Instance byte_eq_dec : EqDecision byte := Byte.byte_eq_dec.

(** A Go [error] value.  [io_EOF] is the sentinel [io.EOF] the sources
    compare against with [==]; every other error is made by [fmt.Errorf] or
    [errors.New] and is known by its message.  A nil error is [None]. *)
Inductive error : Type :=
| io_EOF
| errors_New (msg : string).

#[global] Instance error_eq_dec : EqDecision error.
Proof. solve_decision. Defined.

(** [err.Error()] *)
Definition Error (e : error) : string :=
  match e with
  | io_EOF => "EOF"
  | errors_New msg => msg
  end.

(** [fmt.Errorf] is used by the sources with the verbs %s, %d, %v and %c
    only, so a formatted message is the concatenation of its pieces. *)
Definition fmt_Errorf (pieces : list string) : error :=
  errors_New (String.concat "" pieces).

Definition fmt_Sprintf (pieces : list string) : string :=
  String.concat "" pieces.

(** %d of an [int] *)
Definition fmt_d (z : Z) : string := pretty z.

(** ** Byte streams and the [io.Reader] interface *)

Module IO.

(** A single-pass byte source: it delivers [data] once, in order, and then
    reports [term] for ever ([io_EOF] for a clean end, anything else for a
    transport or decoding failure in the middle of the payload). *)
Record Stream : Type := mkStream {
  data : list byte;
  term : error
}.

(** The outcome of one read: the bytes obtained and Go's [err]. *)
Definition ReadResult : Type := list byte * option error.

(** [io.Reader].  The model works at the granularity of [io.ReadFull]:
    [Read n r] asks for [n] bytes and gets fewer only when the source has
    come to its end, in which case the terminal condition is reported
    together with what was left. *)
Class Reader (R : Type) : Type :=
  Read : nat -> R -> ReadResult * R.
Global Hint Mode Reader ! : typeclass_instances.

#[global] Instance Stream_Reader : Reader Stream := fun n s =>
  if decide (n ≤ length (data s))%nat
  then ((take n (data s), None), mkStream (drop n (data s)) (term s))
  else ((data s, Some (term s)), mkStream [] (term s)).

(** A consumer of a reader that the sources call but do not define (the
    gzip and tar decoders of the Go standard library): all such a consumer
    can do with the [io.Reader] it is handed is call [Read] and look at
    what comes back. *)
Inductive ReadProg (A : Type) : Type :=
| Ret (a : A)
| Call (n : nat) (k : ReadResult -> ReadProg A).
Arguments Ret {A} a.
Arguments Call {A} n k.

Fixpoint run {R} `{Reader R} {A} (p : ReadProg A) (r : R) : A * R :=
  match p with
  | Ret a => (a, r)
  | Call n k => let '(res, r') := Read n r in run (k res) r'
  end.

(** [bytes.MinRead], the chunk size [ioutil.ReadAll] reads with. *)
Definition MinRead : nat := 512.

(** [ioutil.ReadAll]: read until the reader reports an error; [io.EOF] is
    the normal end and is not returned.  The loop is bounded by [fuel];
    [None] means the bound was reached before the reader came to its end. *)
Fixpoint ReadAll_from {R} `{Reader R} (fuel : nat) (acc : list byte) (r : R)
  : option (ReadResult * R) :=
  match fuel with
  | O => None
  | S fuel' =>
      let '((bs, err), r') := Read MinRead r in
      match err with
      | None => ReadAll_from fuel' (acc ++ bs) r'
      | Some io_EOF => Some ((acc ++ bs, None), r')
      | Some e => Some ((acc ++ bs, Some e), r')
      end
  end.

Definition ReadAll {R} `{Reader R} (fuel : nat) (r : R) : option (ReadResult * R) :=
  ReadAll_from fuel [] r.

(** Two readers are indistinguishable through [Read]: [simulates φ] says the
    relation [φ] is preserved by every read and related readers answer every
    read alike.  [delivers r s] says that reader [r] behaves as the plain
    stream [s] does. *)
Definition simulates {R1} `{Reader R1} {R2} `{Reader R2} (φ : R1 -> R2 -> Prop) : Prop :=
  ∀ r1 r2 n, φ r1 r2 ->
    (Read n r1).1 = (Read n r2).1 ∧ φ (Read n r1).2 (Read n r2).2.

Definition delivers {R} `{Reader R} (r : R) (s : Stream) : Prop :=
  ∃ φ : R -> Stream -> Prop, simulates φ ∧ φ r s.

End IO.
Export IO.

(** ** RestorableStream *)

Module RestorableStream.

(** Modelled from the spec: the file that declares [RestoreReader],
    [NewRestoreReader] and [Restore] is not among the sources; §4.1 and the
    design notes of the specification describe it.  The wrapper records in
    [buff] (the RestoreBuffer) exactly the bytes its speculative reads
    consumed from [original]; [Restore] turns the record into the queue
    [replay], and the next reads return first the queued bytes, then the
    remainder of [original].  Only [Read] is used on the wrapped source, so
    nothing but what was read is buffered. *)
Record RestoreReader (R : Type) : Type := mkRestoreReader {
  original : R;
  buff : list byte;
  replay : option (list byte)
}.
Arguments mkRestoreReader {R} original buff replay.
Arguments original {R} r.
Arguments buff {R} r.
Arguments replay {R} r.

(** Modelled from the spec: a fresh wrapper has read nothing (§4.1). *)
Definition NewRestoreReader {R} (r : R) : RestoreReader R :=
  mkRestoreReader r [] None.

(** Modelled from the spec: ordinary sequential reads (§4.1); phase 1
    records what it reads, phase 2 replays the queue before it resumes
    from the underlying source (§9). *)
#[global] Instance RestoreReader_Reader {R} `{Reader R} : Reader (RestoreReader R) :=
  fun n rr =>
    match replay rr with
    | None =>
        let '((bs, err), o') := Read n (original rr) in
        ((bs, err), mkRestoreReader o' (buff rr ++ bs) None)
    | Some q =>
        if decide (n ≤ length q)%nat
        then ((take n q, None), mkRestoreReader (original rr) (buff rr) (Some (drop n q)))
        else
          let '((bs, err), o') := Read (n - length q) (original rr) in
          ((q ++ bs, err), mkRestoreReader o' (buff rr) (Some []))
    end.

(** Modelled from the spec: [restore()] is callable at most once per
    instance; a second call is a programming error, fatal and not
    recoverable (§4.1): [None]. *)
Definition Restore {R} (rr : RestoreReader R) : option (RestoreReader R) :=
  match replay rr with
  | None => Some (mkRestoreReader (original rr) [] (Some (buff rr)))
  | Some _ => None
  end.

(** The two phases of a restorable reader over the stream [S].  Phase 1:
    what was read so far, followed by what the source still holds, is [S].
    Phase 2: the queue, followed by what the source still holds, is [S]. *)
Definition recording {R} `{Reader R} (S : Stream) (rr : RestoreReader R) : Prop :=
  replay rr = None ∧
  ∃ rest : Stream, delivers (original rr) rest ∧
    data S = buff rr ++ data rest ∧ term S = term rest.

Definition replaying {R} `{Reader R} (rr : RestoreReader R) (S : Stream) : Prop :=
  ∃ (q : list byte) (rest : Stream), replay rr = Some q ∧
    delivers (original rr) rest ∧
    data S = q ++ data rest ∧ term S = term rest.

End RestorableStream.
Export RestorableStream.

(** ** path/filepath (Unix) *)

Module Filepath.

Definition slash : ascii := "/"%char.

(** The path elements between the separators; "a//b" has an empty one. *)
Fixpoint split_acc (cur : string) (s : string) : list string :=
  match s with
  | EmptyString => [cur]
  | String c s' =>
      if decide (c = slash) then cur :: split_acc "" s'
      else split_acc (cur +:+ String c "") s'
  end.

Definition split (s : string) : list string := split_acc "" s.

Definition rooted (s : string) : bool :=
  match s with
  | String c _ => bool_decide (c = slash)
  | EmptyString => false
  end.

(** One step of the loop of [Clean]; [out] is the output so far, last
    element first.  An empty element and "." are dropped; ".." removes
    the last real element, is kept in front of a relative path when there
    is nothing to remove, and is dropped at the root. *)
Definition clean_step (is_rooted : bool) (out : list string) (elem : string) : list string :=
  if decide (elem = "") then out
  else if decide (elem = ".") then out
  else if decide (elem = "..") then
    match out with
    | top :: out' => if decide (top = "..") then elem :: out else out'
    | [] => if is_rooted then [] else [elem]
    end
  else elem :: out.

(** [filepath.Clean] *)
Definition Clean (path : string) : string :=
  if decide (path = "") then "."
  else
    let out := rev (foldl (clean_step (rooted path)) [] (split path)) in
    if rooted path then "/" +:+ String.concat "/" out
    else if decide (out = []) then "."
    else String.concat "/" out.

(** [filepath.Join]: empty leading elements are ignored, the rest is joined
    with the separator and cleaned; no element at all gives "". *)
Fixpoint Join (elem : list string) : string :=
  match elem with
  | [] => ""
  | e :: rest =>
      if decide (e = "") then Join rest
      else Clean (String.concat "/" elem)
  end.

Fixpoint has_slash (s : string) : bool :=
  match s with
  | EmptyString => false
  | String c s' => bool_decide (c = slash) || has_slash s'
  end.

(** [path[:i+1]] for [i] the index of the last separator *)
Fixpoint upto_last_slash (s : string) : string :=
  match s with
  | EmptyString => ""
  | String c s' =>
      if bool_decide (c = slash) || has_slash s'
      then String c (upto_last_slash s')
      else ""
  end.

(** [filepath.Dir] *)
Definition Dir (path : string) : string := Clean (upto_last_slash path).

End Filepath.

(** ** The decoders of the Go standard library *)

Module Tar.

(** [tar.Header], with the fields the sources read. *)
Record Header : Type := mkHeader {
  Typeflag : byte;
  Name : string;
  Linkname : string;
  Mode : Z
}.

(** The type flags of [archive/tar]. *)
Definition TypeReg : byte := "0".
Definition TypeRegA : byte := x00.
Definition TypeLink : byte := "1".
Definition TypeSymlink : byte := "2".
Definition TypeChar : byte := "3".
Definition TypeBlock : byte := "4".
Definition TypeDir : byte := "5".
Definition TypeFifo : byte := "6".

End Tar.
Export Tar.

(** The structs that are decoded from JSON. *)
Module Model.

(** [CacheContentModel] of the first [main.go] *)
Record CacheContentModel : Type := mkCacheContentModel {
  DestinationPath : string;
  RelativePathInArchive : string
}.

(** [CacheInfosModel] of the first [main.go] *)
Record CacheInfosModel : Type := mkCacheInfosModel {
  Fingerprint : string;
  Contents : list CacheContentModel
}.

(** [GenerateDownloadURLRespModel] of the second [main.go] *)
Record GenerateDownloadURLRespModel : Type := mkGenerateDownloadURLRespModel {
  DownloadURL : string
}.

End Model.
Export Model.

(** [compress/gzip], [archive/tar], [encoding/json] and [net/http] are
    libraries the sources import; their decoders are taken as they come, as
    programs over the reader they are given.  [gzip_NewReader] reads and
    checks the gzip header and gives a decoder state or an error;
    [gzip_Read] is the [Read] method of [gzip.Reader]; [tar_Next] and
    [tar_Read] are the [Next] and [Read] methods of [tar.Reader], over the
    state [tar.NewReader] starts in; [json_Decode_CacheInfos] is
    [json.NewDecoder(r).Decode] into a [CacheInfosModel];
    [json_Unmarshal_DownloadURL] is [json.Unmarshal] into a
    [GenerateDownloadURLRespModel]; [http_NewRequest] is the error, if any,
    of [http.NewRequest] with method GET for a URL. *)
Class GoLibs : Type := {
  GzDec : Type;
  gzip_NewReader : ReadProg (error + GzDec);
  gzip_Read : nat -> GzDec -> ReadProg (ReadResult * GzDec);
  TarSt : Type;
  tar_init : TarSt;
  tar_Next : TarSt -> ReadProg ((error + Header) * TarSt);
  tar_Read : nat -> TarSt -> ReadProg (ReadResult * TarSt);
  json_Decode_CacheInfos : ReadProg (error + CacheInfosModel);
  json_Unmarshal_DownloadURL : list byte -> error + GenerateDownloadURLRespModel;
  http_NewRequest : string -> option error
}.

Module Decoders.
Section Decoders.
Context `{GoLibs}.

(** [gzip.Reader]: the decoder state and the reader it pulls from. *)
Record gzip_Reader (R : Type) : Type := mk_gzip_Reader {
  gz_dec : GzDec;
  gz_r : R
}.
Global Arguments mk_gzip_Reader {R} gz_dec gz_r.
Global Arguments gz_dec {R} g.
Global Arguments gz_r {R} g.

(** [gzip.NewReader(r)]; the reader comes back in the state the attempt
    left it in. *)
Definition gzip_open {R} `{Reader R} (r : R) : (error + gzip_Reader R) * R :=
  let '(res, r') := run gzip_NewReader r in
  match res with
  | inl err => (inl err, r')
  | inr d => (inr (mk_gzip_Reader d r'), r')
  end.

Global Instance gzip_Reader_Reader {R} `{Reader R} : Reader (gzip_Reader R) :=
  fun n z =>
    let '((res, d), r') := run (gzip_Read n (gz_dec z)) (gz_r z) in
    (res, mk_gzip_Reader d r').

(** [tar.Reader] *)
Record tar_Reader (R : Type) : Type := mk_tar_Reader {
  tar_st : TarSt;
  tar_r : R
}.
Global Arguments mk_tar_Reader {R} tar_st tar_r.
Global Arguments tar_st {R} t.
Global Arguments tar_r {R} t.

(** [tar.NewReader(r)] *)
Definition tar_NewReader {R} (r : R) : tar_Reader R :=
  mk_tar_Reader tar_init r.

(** [tr.Next()] *)
Definition Next {R} `{Reader R} (tr : tar_Reader R) : (error + Header) * tar_Reader R :=
  let '((res, st), r') := run (tar_Next (tar_st tr)) (tar_r tr) in
  (res, mk_tar_Reader st r').

Global Instance tar_Reader_Reader {R} `{Reader R} : Reader (tar_Reader R) :=
  fun n tr =>
    let '((res, st), r') := run (tar_Read n (tar_st tr)) (tar_r tr) in
    (res, mk_tar_Reader st r').

End Decoders.
End Decoders.
Export Decoders.

(** ** archive.go *)

Module Archive.
Section Archive.
Context `{GoLibs}.

(** The dynamic type of [archive] in [readFirstEntry]: the [io.Reader]
    holds either the [gzip.Reader] or the [RestoreReader] itself. *)
Inductive archive_Reader (R : Type) : Type :=
| AsGzip (z : gzip_Reader (RestoreReader R))
| AsRestore (rr : RestoreReader R).
Global Arguments AsGzip {R} z.
Global Arguments AsRestore {R} rr.

Global Instance archive_Reader_Reader {R} `{Reader R} : Reader (archive_Reader R) :=
  fun n a =>
    match a with
    | AsGzip z => let '(res, z') := Read n z in (res, AsGzip z')
    | AsRestore rr => let '(res, rr') := Read n rr in (res, AsRestore rr')
    end.

(** The [RestoreReader] an archive reads from. *)
Definition restoreReader_of {R} (a : archive_Reader R) : RestoreReader R :=
  match a with
  | AsGzip z => gz_r z
  | AsRestore rr => rr
  end.

(** What [readFirstEntry] gives back: the tar reader, the header and the
    error. *)
Definition FirstEntry (R : Type) : Type :=
  option (tar_Reader (archive_Reader R)) * option Header * option error.

(** [log.Debugf] of the bitrise logger; the messages are collected. *)
Definition log_Debugf (pieces : list string) : string := fmt_Sprintf pieces.

(** Lines 48-63 of [readFirstEntry]: the archive reader the function
    settles on, and the debug messages on the way.  [None] is the fatal
    failure of [Restore]. *)
Definition readFirstEntry_archive {R} `{Reader R} (r : R)
  : list string * option (archive_Reader R) :=
  let restoreReader := NewRestoreReader r in
  let log1 := [log_Debugf ["attempt to read archive as .gzip"]] in
  let '(res, restoreReader) := gzip_open restoreReader in
  match res with
  | inr z => (log1, Some (AsGzip z))
  | inl err =>
      (* might the archive is not compressed *)
      let log2 := log1 ++
        [log_Debugf ["failed to open the archive as .gzip: "; Error err];
         log_Debugf ["restoring reader and trying as .tar"]] in
      match Restore restoreReader with
      | None => (log2, None)
      | Some restoreReader => (log2, Some (AsRestore restoreReader))
      end
  end.

(** Lines 65-75 of [readFirstEntry]. *)
Definition readFirstEntry_next {R} `{Reader R} (archive : archive_Reader R) : FirstEntry R :=
  let tr := tar_NewReader archive in
  let '(res, tr) := Next tr in
  match res with
  | inl io_EOF =>
      (* no entries in the archive *)
      (None, None, None)
  | inl err => (None, None, Some err)
  | inr hdr => (Some tr, Some hdr, None)
  end.

(** [readFirstEntry] reads the first entry from a given archive. *)
Definition readFirstEntry {R} `{Reader R} (r : R) : list string * option (FirstEntry R) :=
  let '(log, archive) := readFirstEntry_archive r in
  (log, readFirstEntry_next <$> archive).

End Archive.
End Archive.
Export Archive.

(** ** StackCompatibilityGate *)

Module Gate.

(** Modelled from the spec: no source file holds the stack check; §4.6 of
    the specification gives its contract.  The decision is to proceed or to
    abort with a mismatch error that names the two identities. *)
Inductive Decision : Type :=
| Proceed
| Abort (manifestStackId currentStackId : string).

#[global] Instance Decision_eq_dec : EqDecision Decision.
Proof. solve_decision. Defined.

(** Modelled from the spec: "If the two identities are equal (or either is
    unset, meaning don't care), decision = proceed.  If they differ: when
    allowFallback is false, decision = abort with a descriptive mismatch
    error; when true, decision = proceed anyway" (§4.6).  Unset is the empty
    string. *)
Definition check (manifestStackId currentStackId : string) (allowFallback : bool) : Decision :=
  if decide (manifestStackId = currentStackId) then Proceed
  else if decide (manifestStackId = "") then Proceed
  else if decide (currentStackId = "") then Proceed
  else if allowFallback then Proceed
  else Abort manifestStackId currentStackId.

End Gate.

(** ** The operating system the step runs on *)

Module OS.
Import Filepath.

(** What a path of the file system holds. *)
Inductive Node : Type :=
| File (content : list byte) (mode : Z)
| Directory
| Symlink (target : string).

#[global] Instance Node_eq_dec : EqDecision Node.
Proof. solve_decision. Defined.

(** [http.Response], with the fields the sources read. *)
Record Response : Type := mkResponse {
  StatusCode : Z;
  Body : Stream
}.

(** What the program does to the outside, in the order it does it.  A call
    is recorded whether it succeeds or fails. *)
Inductive Event : Type :=
| EvLog (msg : string)
| EvCreate (name : string)
| EvHttpGet (url : string)
| EvSleep (ms : Z)
| EvMkdirAll (path : string)
| EvRename (oldpath newpath : string)
| EvSymlink (oldname newname : string)
| EvLink (oldname newname : string)
| EvChmod (name : string) (mode : Z)
| EvTempDir (prefix : string)
| EvExec (dir : string) (argv : list string).

#[global] Instance Event_eq_dec : EqDecision Event.
Proof. solve_decision. Defined.

(** The state of the process and of its surroundings: the file system, the
    environment variables, the answers the network is going to give to the
    successive requests (each may depend on the URL asked for), the names
    the system has left for temporary directories, the behaviour of the
    commands the step starts (working directory, arguments, file system
    before; combined output, error and file system after), [runtime.GOOS],
    the global [gIsDebugMode] of both [main.go], and the record of events. *)
Record World : Type := mkWorld {
  fs : gmap string Node;
  environ : gmap string string;
  net : list (string -> error + Response);
  tmp_names : list string;
  exec : string -> list string -> gmap string Node -> (string * option error) * gmap string Node;
  GOOS : string;
  gIsDebugMode : bool;
  trace : list Event
}.

Definition set_fs (m : gmap string Node) (w : World) : World :=
  mkWorld m (environ w) (net w) (tmp_names w) (exec w) (GOOS w) (gIsDebugMode w) (trace w).
Definition set_net (n : list (string -> error + Response)) (w : World) : World :=
  mkWorld (fs w) (environ w) n (tmp_names w) (exec w) (GOOS w) (gIsDebugMode w) (trace w).
Definition set_tmp_names (l : list string) (w : World) : World :=
  mkWorld (fs w) (environ w) (net w) l (exec w) (GOOS w) (gIsDebugMode w) (trace w).
Definition set_gIsDebugMode (b : bool) (w : World) : World :=
  mkWorld (fs w) (environ w) (net w) (tmp_names w) (exec w) (GOOS w) b (trace w).
Definition set_trace (t : list Event) (w : World) : World :=
  mkWorld (fs w) (environ w) (net w) (tmp_names w) (exec w) (GOOS w) (gIsDebugMode w) t.

(** Statements of the Go program: functions of the world. *)
Definition M (A : Type) : Type := World -> A * World.

Definition ret {A} (a : A) : M A := fun w => (a, w).
Definition bind {A B} (m : M A) (k : A -> M B) : M B :=
  fun w => let '(a, w') := m w in k a w'.

Declare Scope go_scope.
Delimit Scope go_scope with go.
Notation "x <- m ;; k" := (bind m (fun x => k))
  (at level 100, m at next level, right associativity) : go_scope.
Notation "m ;;; k" := (bind m (fun _ => k))
  (at level 100, right associativity) : go_scope.
Local Open Scope go_scope.

Definition emit (ev : Event) : M unit :=
  fun w => (tt, set_trace (trace w ++ [ev]) w).

Definition when (b : bool) (m : M unit) : M unit :=
  if b then m else ret tt.

(** [for _, x := range l { body }] *)
Fixpoint for_range {A} (l : list A) (body : A -> M unit) : M unit :=
  match l with
  | [] => ret tt
  | x :: l' => body x ;;; for_range l' body
  end.

(** [log.Printf], [log.Println] and [fmt.Println] *)
Definition log_Printf (pieces : list string) : M unit := emit (EvLog (fmt_Sprintf pieces)).
Definition log_Println (msg : string) : M unit := emit (EvLog msg).
Definition fmt_Println : M unit := emit (EvLog "").

Definition get_gIsDebugMode : M bool := fun w => (gIsDebugMode w, w).
Definition put_gIsDebugMode (b : bool) : M unit := fun w => (tt, set_gIsDebugMode b w).

(** [os.Getenv] *)
Definition os_Getenv (key : string) : M string :=
  fun w => (default "" (environ w !! key), w).

(** [runtime.GOOS] *)
Definition runtime_GOOS : M string := fun w => (GOOS w, w).

(** [time.Sleep], in milliseconds *)
Definition time_Sleep (ms : Z) : M unit := emit (EvSleep ms).

(** A path is a directory when the file system says so; the root and the
    working directory always are. *)
Definition is_dir (m : gmap string Node) (p : string) : bool :=
  bool_decide (p = "/") || bool_decide (p = ".") ||
  match m !! p with Some Directory => true | _ => false end.

Definition PathError (op path msg : string) : error :=
  errors_New (op +:+ " " +:+ path +:+ ": " +:+ msg).

(** [os.Create]: the file is created with mode 0666, or truncated when it
    exists; the handle is the name. *)
Definition os_Create (name : string) : M (error + string) :=
  emit (EvCreate name) ;;;
  fun w =>
    if is_dir (fs w) (Dir name) then
      match fs w !! name with
      | None => (inr name, set_fs (<[name := File [] 438]> (fs w)) w)
      | Some (File _ mode) => (inr name, set_fs (<[name := File [] mode]> (fs w)) w)
      | Some Directory => (inl (PathError "open" name "is a directory"), w)
      | Some (Symlink _) => (inl (PathError "open" name "too many levels of symbolic links"), w)
      end
    else (inl (PathError "open" name "no such file or directory"), w).

(** [f.Close()] and [resp.Body.Close()]: closing does not fail here. *)
Definition Close : M (option error) := ret None.

(** [f.Chmod] *)
Definition File_Chmod (name : string) (mode : Z) : M (option error) :=
  emit (EvChmod name mode) ;;;
  fun w =>
    match fs w !! name with
    | Some (File c _) => (None, set_fs (<[name := File c mode]> (fs w)) w)
    | _ => (Some (PathError "chmod" name "bad file descriptor"), w)
    end.

(** [io.Copy(out, src)]: what the source delivers is appended to the file,
    up to the point where the source fails, if it does; the end of the
    source is not an error. *)
Definition io_Copy (out : string) (src : Stream) : M (Z * option error) :=
  fun w =>
    match fs w !! out with
    | Some (File c mode) =>
        ((Z.of_nat (length (data src)),
          if decide (term src = io_EOF) then None else Some (term src)),
         set_fs (<[out := File (c ++ data src) mode]> (fs w)) w)
    | _ => ((0, Some (PathError "write" out "bad file descriptor")), w)
    end.

(** [ioutil.ReadAll] of a response body or an opened file *)
Definition ioutil_ReadAll (r : Stream) : list byte * option error :=
  (data r, if decide (term r = io_EOF) then None else Some (term r)).

(** [os.Open]: the content of a regular file, as a reader. *)
Definition os_Open (name : string) : M (error + Stream) :=
  fun w =>
    match fs w !! name with
    | Some (File c _) => (inr (mkStream c io_EOF), w)
    | Some Directory => (inr (mkStream [] (PathError "read" name "is a directory")), w)
    | _ => (inl (PathError "open" name "no such file or directory"), w)
    end.

(** [http.Get] and [client.Do] of a GET request: the next answer of the
    network, for this URL. *)
Definition http_Get (url : string) : M (error + Response) :=
  emit (EvHttpGet url) ;;;
  fun w =>
    match net w with
    | [] => (inl (errors_New ("Get " +:+ url +:+ ": dial tcp: no route to host")), w)
    | answer :: rest => (answer url, set_net rest w)
    end.

(** The paths [MkdirAll] has to find or make, outermost first. *)
Definition ancestors (path : string) : list string :=
  let c := Clean path in
  let elems := filter (fun e => e ≠ "") (split c) in
  (foldl (fun '(cur, acc) e =>
            let nxt := if decide (cur = "")
                       then (if rooted c then "/" +:+ e else e)
                       else cur +:+ "/" +:+ e in
            (nxt, acc ++ [nxt]))
         ("", []) elems).2.

Fixpoint mkdir_chain (m : gmap string Node) (ps : list string) : error + gmap string Node :=
  match ps with
  | [] => inr m
  | p :: ps' =>
      if is_dir m p then mkdir_chain m ps'
      else match m !! p with
           | Some _ => inl (PathError "mkdir" p "not a directory")
           | None => mkdir_chain (<[p := Directory]> m) ps'
           end
  end.

(** [os.MkdirAll]: nothing is made when a path on the way is not a
    directory. *)
Definition os_MkdirAll (path : string) (perm : Z) : M (option error) :=
  emit (EvMkdirAll path) ;;;
  fun w =>
    match mkdir_chain (fs w) (ancestors path) with
    | inl err => (Some err, w)
    | inr m => (None, set_fs m w)
    end.

(** Is [p] a proper prefix of [s], and what follows it. *)
Fixpoint strip_prefix (p s : string) : option string :=
  match p, s with
  | EmptyString, _ => Some s
  | String a p', String b s' => if decide (a = b) then strip_prefix p' s' else None
  | String _ _, EmptyString => None
  end.

(** Where a path ends up when [oldpath] is renamed to [newpath]. *)
Definition rekey (oldpath newpath k : string) : string :=
  if decide (k = oldpath) then newpath
  else match strip_prefix (oldpath +:+ "/") k with
       | Some rest => newpath +:+ "/" +:+ rest
       | None => k
       end.

Definition under (dir k : string) : bool :=
  bool_decide (is_Some (strip_prefix (dir +:+ "/") k)).

(** [os.Rename]: the node and, for a directory, everything under it
    moves; a regular file at the destination is replaced. *)
Definition os_Rename (oldpath newpath : string) : M (option error) :=
  emit (EvRename oldpath newpath) ;;;
  fun w =>
    let m := fs w in
    let fail msg := (Some (errors_New ("rename " +:+ oldpath +:+ " " +:+ newpath +:+ ": " +:+ msg)), w) in
    match m !! oldpath with
    | None => fail "no such file or directory"
    | Some node =>
        if decide (oldpath = newpath) then (None, w)
        else if negb (is_dir m (Dir newpath)) then fail "no such file or directory"
        else if under oldpath newpath then fail "invalid argument"
        else
          let moved := (None, set_fs (list_to_map
                         (prod_map (rekey oldpath newpath) id <$> map_to_list (delete newpath m))) w) in
          match node, m !! newpath with
          | _, None => moved
          | Directory, Some Directory =>
              if bool_decide (Exists (under newpath) (fst <$> map_to_list m))
              then fail "directory not empty" else moved
          | Directory, Some _ => fail "not a directory"
          | _, Some Directory => fail "file exists"
          | _, Some _ => moved
          end
    end.

(** [os.Symlink] *)
Definition os_Symlink (oldname newname : string) : M (option error) :=
  emit (EvSymlink oldname newname) ;;;
  fun w =>
    let fail msg := (Some (errors_New ("symlink " +:+ oldname +:+ " " +:+ newname +:+ ": " +:+ msg)), w) in
    if negb (is_dir (fs w) (Dir newname)) then fail "no such file or directory"
    else match fs w !! newname with
         | Some _ => fail "file exists"
         | None => (None, set_fs (<[newname := Symlink oldname]> (fs w)) w)
         end.

(** [os.Link]: the new name gets the content of the old one, which has to
    be a regular file. *)
Definition os_Link (oldname newname : string) : M (option error) :=
  emit (EvLink oldname newname) ;;;
  fun w =>
    let fail msg := (Some (errors_New ("link " +:+ oldname +:+ " " +:+ newname +:+ ": " +:+ msg)), w) in
    match fs w !! oldname with
    | Some (File c mode) =>
        if negb (is_dir (fs w) (Dir newname)) then fail "no such file or directory"
        else match fs w !! newname with
             | Some _ => fail "file exists"
             | None => (None, set_fs (<[newname := File c mode]> (fs w)) w)
             end
    | Some Directory => fail "operation not permitted"
    | _ => fail "no such file or directory"
    end.

(** [pathutil.NormalizedOSTempDirPath]: a fresh directory under /tmp. *)
Definition NormalizedOSTempDirPath (tmpDirNamePrefix : string) : M (error + string) :=
  emit (EvTempDir tmpDirNamePrefix) ;;;
  fun w =>
    match tmp_names w with
    | [] => (inl (errors_New "mkdir /tmp: no space left on device"), w)
    | n :: rest =>
        let pth := "/tmp/" +:+ tmpDirNamePrefix +:+ n in
        (inr pth, set_tmp_names rest (set_fs (<[pth := Directory]> (fs w)) w))
    end.

(** What a record of events says: the names [os.Create] was called with,
    the URLs requested, the sleeps, the directories [os.MkdirAll] was
    called with, and the renames. *)
Definition creates_of (t : list Event) : list string :=
  omap (fun e => match e with EvCreate name => Some name | _ => None end) t.
Definition requests_of (t : list Event) : list string :=
  omap (fun e => match e with EvHttpGet url => Some url | _ => None end) t.
Definition sleeps_of (t : list Event) : list Z :=
  omap (fun e => match e with EvSleep ms => Some ms | _ => None end) t.
Definition mkdirs_of (t : list Event) : list string :=
  omap (fun e => match e with EvMkdirAll path => Some path | _ => None end) t.
Definition renames_of (t : list Event) : list (string * string) :=
  omap (fun e => match e with EvRename o n => Some (o, n) | _ => None end) t.

(** The log lines that report a skipped cache item, and how many a record
    of events holds. *)
Definition is_skip_log (e : Event) : bool :=
  match e with
  | EvLog msg =>
      String.prefix " [!] Failed to create base path" msg ||
      String.prefix " [!] Failed to move cache item" msg
  | _ => false
  end.
Definition skipped_of (t : list Event) : nat := length (List.filter is_skip_log t).

(** The events that are log lines only. *)
Definition only_logs (evs : list Event) : Prop :=
  Forall (fun e => ∃ msg, e = EvLog msg) evs.

(** Running a command to its end, with its combined output. *)
Definition run_command (dir : string) (argv : list string) : M (string * option error) :=
  emit (EvExec dir argv) ;;;
  fun w =>
    let '(res, m) := exec w dir argv (fs w) in
    (res, set_fs m w).

End OS.

(** %s of a byte slice and of a string slice, %#v of a string *)
Definition fmt_bytes (b : list byte) : string := string_of_list_byte b.
Definition fmt_strings (l : list string) : string := "[" +:+ String.concat " " l +:+ "]".
Definition dquote : string := String (ascii_of_nat 34) "".
Definition fmt_quoted (s : string) : string := dquote +:+ s +:+ dquote.

(** ** src/go/src/github.com/bitrise-steplib/steps-cache-pull/main.go *)

Module CachePull.
Import Filepath OS.
Local Open Scope go_scope.

Section CachePull.
Context `{GoLibs}.

(** %#v of a [CacheContentModel] *)
Definition fmt_CacheContentModel (c : CacheContentModel) : string :=
  fmt_Sprintf ["main.CacheContentModel{DestinationPath:"; fmt_quoted (DestinationPath c);
               ", RelativePathInArchive:"; fmt_quoted (RelativePathInArchive c); "}"].

(** The [for] loop of [readCacheInfoFromArchive], lines 85-101; [None]
    when [fuel] entries were read without reaching the end. *)
Fixpoint readCacheInfoFromArchive_loop {R} `{Reader R} (fuel : nat) (tarReader : tar_Reader R)
  : option (CacheInfosModel * option error) :=
  match fuel with
  | O => None
  | S fuel' =>
      let '(res, tarReader) := Next tarReader in
      match res with
      | inl io_EOF =>
          Some (mkCacheInfosModel "" [],
                Some (errors_New "Did not find the required Cache Info file in the Archive"))
      | inl err =>
          Some (mkCacheInfosModel "" [],
                Some (fmt_Errorf ["Failed to read Archive, Tar error: "; Error err]))
      | inr header =>
          let filePth := Name header in
          if decide (filePth = "./cache-info.json") then
            match (run json_Decode_CacheInfos tarReader).1 with
            | inl err =>
                Some (mkCacheInfosModel "" [],
                      Some (fmt_Errorf ["Failed to read Cache Info JSON from Archive: "; Error err]))
            | inr cacheInfos => Some (cacheInfos, None)
            end
          else readCacheInfoFromArchive_loop fuel' tarReader
      end
  end.

Definition readCacheInfoFromArchive (fuel : nat) (archiveFilePth : string)
  : M (option (CacheInfosModel * option error)) :=
  r <- os_Open archiveFilePth ;;
  match r with
  | inl err =>
      ret (Some (mkCacheInfosModel "" [],
                 Some (fmt_Errorf ["Failed to open Archive file ("; archiveFilePth; "): "; Error err])))
  | inr f =>
      match (gzip_open f).1 with
      | inl err =>
          _ <- Close ;;
          ret (Some (mkCacheInfosModel "" [],
                     Some (fmt_Errorf ["Failed to initialize Archive gzip reader: "; Error err])))
      | inr gzf =>
          let tarReader := tar_NewReader gzf in
          let res := readCacheInfoFromArchive_loop fuel tarReader in
          _ <- Close ;;
          _ <- Close ;;
          ret res
      end
  end.

(** The body of the [for] loop of [uncompressCaches], lines 134-153. *)
Definition uncompressCaches_item (tmpCacheInfosDirPath : string)
    (aCacheContentInfo : CacheContentModel) : M unit :=
  dbg <- get_gIsDebugMode ;;
  when dbg (log_Printf [" * aCacheContentInfo: "; fmt_CacheContentModel aCacheContentInfo]) ;;;
  let srcPath := Join [tmpCacheInfosDirPath; RelativePathInArchive aCacheContentInfo] in
  let targetPath := DestinationPath aCacheContentInfo in
  (* create required target path *)
  let targetBaseDir := Dir targetPath in
  err <- os_MkdirAll targetBaseDir 493 ;;
  match err with
  | Some err =>
      log_Printf [" [!] Failed to create base path ("; targetBaseDir; ") for cache item (";
                  srcPath; "): "; Error err]
      (* continue *)
  | None =>
      log_Printf [" [MOVE]: "; srcPath; " => "; targetPath] ;;;
      err <- os_Rename srcPath targetPath ;;
      match err with
      | Some err =>
          log_Printf [" [!] Failed to move cache item ("; srcPath; ") to it's place: "; Error err]
          (* continue *)
      | None => ret tt
      end
  end.

Definition uncompressCaches (cacheFilePath : string) (cacheInfo : CacheInfosModel)
  : M (string * option error) :=
  r <- NormalizedOSTempDirPath "" ;;
  match r with
  | inl err =>
      ret ("", Some (fmt_Errorf [" [!] Failed to create temp directory for cache infos: "; Error err]))
  | inr tmpCacheInfosDirPath =>
      dbg <- get_gIsDebugMode ;;
      when dbg (log_Printf ["=> tmpCacheInfosDirPath: "; fmt_quoted tmpCacheInfosDirPath]) ;;;
      let tarCmdParams := ["-xvzf"; cacheFilePath] in
      when dbg (log_Printf [" $ tar "; fmt_strings tarCmdParams]) ;;;
      r <- run_command tmpCacheInfosDirPath ("tar" :: tarCmdParams) ;;
      let '(fullOut, err) := r in
      match err with
      | Some err =>
          log_Printf [" [!] Failed to uncompress cache archive, full output (stdout & stderr) was: ";
                      fullOut] ;;;
          ret ("", Some (fmt_Errorf ["Failed to uncompress cache archive, error was: "; Error err]))
      | None =>
          for_range (Contents cacheInfo) (uncompressCaches_item tmpCacheInfosDirPath) ;;;
          ret (tmpCacheInfosDirPath, None)
      end
  end.

Definition downloadFile (url : string) (localPath : string) : M (option error) :=
  r <- os_Create localPath ;;
  match r with
  | inl err =>
      ret (Some (fmt_Errorf ["Failed to open the local cache file for write: "; Error err]))
  | inr out =>
      (* Get the data *)
      r <- http_Get url ;;
      match r with
      | inl err =>
          _ <- Close ;;
          ret (Some (fmt_Errorf ["Failed to create cache download request: "; Error err]))
      | inr resp =>
          res <-
            (if decide (StatusCode resp ≠ 200) then
               let '(responseBytes, err) := ioutil_ReadAll (Body resp) in
               match err with
               | Some err => log_Printf [" (!) Failed to read response body: "; Error err]
               | None => ret tt
               end ;;;
               log_Printf [" ==> (!) Response content: "; fmt_bytes responseBytes] ;;;
               ret (Some (fmt_Errorf ["Failed to download archive - non success response code: ";
                                      fmt_d (StatusCode resp)]))
             else
               (* Writer the body to file *)
               r <- io_Copy out (Body resp) ;;
               match r.2 with
               | Some err =>
                   ret (Some (fmt_Errorf ["Failed to save cache content into file: "; Error err]))
               | None => ret None
               end) ;;
          _ <- Close ;;
          _ <- Close ;;
          ret res
      end
  end.

Definition downloadFileWithRetry (url : string) (localPath : string) : M (option error) :=
  err <- downloadFile url localPath ;;
  match err with
  | Some _ =>
      fmt_Println ;;;
      log_Printf [" ===> (!) First download attempt failed, retrying..."] ;;;
      fmt_Println ;;;
      time_Sleep 3000 ;;;
      downloadFile url localPath
  | None => ret None
  end.

End CachePull.

(** [srcPath] and [targetBaseDir] of an item, lines 138 and 142. *)
Definition item_src (tmp : string) (it : CacheContentModel) : string :=
  Join [tmp; RelativePathInArchive it].
Definition item_base (it : CacheContentModel) : string := Dir (DestinationPath it).

End CachePull.

(** ** src/unnamed/part_001: the [main.go] that asks the cache API *)

Module CacheDownload.
Import Filepath OS.
Local Open Scope go_scope.

(** [StepParamsModel] *)
Record StepParamsModel : Type := mkStepParamsModel {
  CacheAPIURL : string;
  IsDebugMode : bool
}.

(** %#v of a [StepParamsModel] *)
Definition fmt_StepParamsModel (p : StepParamsModel) : string :=
  fmt_Sprintf ["main.StepParamsModel{CacheAPIURL:"; fmt_quoted (CacheAPIURL p);
               ", IsDebugMode:"; if IsDebugMode p then "true" else "false"; "}"].

(** [CreateStepParamsFromEnvs] *)
Definition CreateStepParamsFromEnvs : M (StepParamsModel * option error) :=
  url <- os_Getenv "cache_api_url" ;;
  dbg <- os_Getenv "is_debug_mode" ;;
  let stepParams := mkStepParamsModel url (bool_decide (dbg = "true")) in
  ret (stepParams, None).

Definition uncompressCaches (cacheFilePath : string) : M (option error) :=
  let tarCmdParams := ["-xPf"; cacheFilePath] in
  dbg <- get_gIsDebugMode ;;
  when dbg (log_Printf [" $ tar "; fmt_strings tarCmdParams]) ;;;
  r <- run_command "" ("tar" :: tarCmdParams) ;;
  let '(fullOut, err) := r in
  match err with
  | Some err =>
      log_Printf [" [!] Failed to uncompress cache archive, full output (stdout & stderr) was: ";
                  fullOut] ;;;
      ret (Some (fmt_Errorf ["Failed to uncompress cache archive, error was: "; Error err]))
  | None => ret None
  end.

Definition downloadFile (url : string) (localPath : string) : M (option error) :=
  r <- os_Create localPath ;;
  match r with
  | inl err =>
      ret (Some (fmt_Errorf ["Failed to open the local cache file for write: "; Error err]))
  | inr out =>
      (* Get the data *)
      r <- http_Get url ;;
      match r with
      | inl err =>
          _ <- Close ;;
          ret (Some (fmt_Errorf ["Failed to create cache download request: "; Error err]))
      | inr resp =>
          res <-
            (if decide (StatusCode resp ≠ 200) then
               let '(responseBytes, err) := ioutil_ReadAll (Body resp) in
               match err with
               | Some err => log_Printf [" (!) Failed to read response body: "; Error err]
               | None => ret tt
               end ;;;
               log_Printf [" ==> (!) Response content: "; fmt_bytes responseBytes] ;;;
               ret (Some (fmt_Errorf ["Failed to download archive - non success response code: ";
                                      fmt_d (StatusCode resp)]))
             else
               (*Writer the body to file*)
               r <- io_Copy out (Body resp) ;;
               match r.2 with
               | Some err =>
                   ret (Some (fmt_Errorf ["Failed to save cache content into file: "; Error err]))
               | None => ret None
               end) ;;
          _ <- Close ;;
          _ <- Close ;;
          ret res
      end
  end.

(** [header.FileInfo().Mode()], as [Chmod] hands it to the system: the
    permission bits with setuid, setgid and sticky. *)
Definition FileInfo_Mode (header : Header) : Z := Z.land (Mode header) 4095.

Definition writeNewFile (fpath : string) (in_ : Stream) (fm : Z) : M (option error) :=
  err <- os_MkdirAll (Dir fpath) 493 ;;
  match err with
  | Some err => ret (Some (fmt_Errorf [fpath; ": making directory for file: "; Error err]))
  | None =>
      r <- os_Create fpath ;;
      match r with
      | inl err => ret (Some (fmt_Errorf [fpath; ": creating new file: "; Error err]))
      | inr out =>
          res <-
            (err <- File_Chmod out fm ;;
             goos <- runtime_GOOS ;;
             match err with
             | Some err =>
                 if decide (goos ≠ "windows")
                 then ret (Some (Some (fmt_Errorf [fpath; ": changing file mode: "; Error err])))
                 else ret None
             | None => ret None
             end) ;;
          res <-
            match res with
            | Some returned => ret returned
            | None =>
                r <- io_Copy out in_ ;;
                match r.2 with
                | Some err => ret (Some (fmt_Errorf [fpath; ": writing file: "; Error err]))
                | None => ret None
                end
            end ;;
          _ <- Close ;;
          ret res
      end
  end.

Definition writeNewSymbolicLink (fpath : string) (target : string) : M (option error) :=
  err <- os_MkdirAll (Dir fpath) 493 ;;
  match err with
  | Some err => ret (Some (fmt_Errorf [fpath; ": making directory for file: "; Error err]))
  | None =>
      err <- os_Symlink target fpath ;;
      match err with
      | Some err => ret (Some (fmt_Errorf [fpath; ": making symbolic link for: "; Error err]))
      | None => ret None
      end
  end.

Definition writeNewHardLink (fpath : string) (target : string) : M (option error) :=
  err <- os_MkdirAll (Dir fpath) 493 ;;
  match err with
  | Some err => ret (Some (fmt_Errorf [fpath; ": making directory for file: "; Error err]))
  | None =>
      err <- os_Link target fpath ;;
      match err with
      | Some err => ret (Some (fmt_Errorf [fpath; ": making hard link for: "; Error err]))
      | None => ret None
      end
  end.

Definition mkdir (dirPath : string) : M (option error) :=
  err <- os_MkdirAll dirPath 493 ;;
  match err with
  | Some err => ret (Some (fmt_Errorf [dirPath; ": making directory: "; Error err]))
  | None => ret None
  end.

(** [untarFile] untars a single file from [tr] with header [header] into
    destination.  [tr] is the payload of the entry the tar reader stands
    at. *)
Definition untarFile (tr : Stream) (header : Header) : M (option error) :=
  let flag := Typeflag header in
  if decide (flag = TypeDir) then
    mkdir (Name header)
  else if decide (flag = TypeReg ∨ flag = TypeRegA ∨ flag = TypeChar ∨
                  flag = TypeBlock ∨ flag = TypeFifo) then
    writeNewFile (Name header) tr (FileInfo_Mode header)
  else if decide (flag = TypeSymlink) then
    writeNewSymbolicLink (Name header) (Linkname header)
  else if decide (flag = TypeLink) then
    writeNewHardLink (Name header) (Join [Name header; Linkname header])
  else
    ret (Some (fmt_Errorf [Name header; ": unknown type flag: ";
                           string_of_list_byte [flag]])).

Section CacheDownload.
Context `{GoLibs}.

Definition getCacheDownloadURL (cacheAPIURL : string) : M (string * option error) :=
  match http_NewRequest cacheAPIURL with
  | Some err => ret ("", Some (fmt_Errorf ["Failed to create request: "; Error err]))
  | None =>
      r <- http_Get cacheAPIURL ;;
      match r with
      | inl err => ret ("", Some (fmt_Errorf ["Failed to send request: "; Error err]))
      | inr resp =>
          res <-
            (let '(body, err) := ioutil_ReadAll (Body resp) in
             match err with
             | Some _ =>
                 ret ("", Some (fmt_Errorf
                   ["Request sent, but failed to read response body (http-code:";
                    fmt_d (StatusCode resp); "): "; fmt_bytes body]))
             | None =>
                 if decide (StatusCode resp < 200 ∨ StatusCode resp > 202) then
                   ret ("", Some (fmt_Errorf
                     ["Build cache not found. Probably cache not initialised yet (first cache push initialises the cache), nothing to worry about ;)"]))
                 else
                   match json_Unmarshal_DownloadURL body with
                   | inl _ =>
                       ret ("", Some (fmt_Errorf
                         ["Request sent, but failed to parse JSON response (http-code:";
                          fmt_d (StatusCode resp); "): "; fmt_bytes body]))
                   | inr respModel =>
                       if decide (DownloadURL respModel = "") then
                         ret ("", Some (fmt_Errorf
                           ["Request sent, but Download URL is empty (http-code:";
                            fmt_d (StatusCode resp); "): "; fmt_bytes body]))
                       else ret (DownloadURL respModel, None)
                   end
             end) ;;
          _ <- Close ;;
          ret res
      end
  end.

Definition downloadFileWithRetry (cacheAPIURL : string) (localPath : string) : M (option error) :=
  r <- getCacheDownloadURL cacheAPIURL ;;
  let '(downloadURL, err) := r in
  match err with
  | Some err => ret (Some err)
  | None =>
      dbg <- get_gIsDebugMode ;;
      when dbg (log_Printf ["   [DEBUG] downloadURL: "; downloadURL]) ;;;
      err <- downloadFile downloadURL localPath ;;
      match err with
      | Some _ =>
          fmt_Println ;;;
          log_Printf [" ===> (!) First download attempt failed, retrying..."] ;;;
          fmt_Println ;;;
          time_Sleep 3000 ;;;
          downloadFile downloadURL localPath
      | None => ret None
      end
  end.

(** [log.Fatalf]: the message, then [os.Exit(1)]. *)
Definition log_Fatalf (pieces : list string) : M Z :=
  log_Printf pieces ;;; ret 1.

(** [main]; the value is the exit status of the process. *)
Definition main : M Z :=
  log_Println "Cache pull..." ;;;
  r <- CreateStepParamsFromEnvs ;;
  let '(stepParams, err) := r in
  match err with
  | Some err => log_Fatalf [" [!] Input error : "; Error err]
  | None =>
      put_gIsDebugMode (IsDebugMode stepParams) ;;;
      dbg <- get_gIsDebugMode ;;
      when dbg (log_Printf ["=> stepParams: "; fmt_StepParamsModel stepParams]) ;;;
      if decide (CacheAPIURL stepParams = "") then
        log_Println " (i) No Cache API URL specified, there's no cache to use, exiting." ;;;
        ret 0
      else
        (* Download Cache Archive *)
        log_Println "=> Downloading Cache ..." ;;;
        let cacheArchiveFilePath := "/tmp/cache-archive.tar" in
        err <- downloadFileWithRetry (CacheAPIURL stepParams) cacheArchiveFilePath ;;
        match err with
        | Some err => log_Fatalf [" [!] Unable to download cache: "; Error err]
        | None =>
            dbg <- get_gIsDebugMode ;;
            when dbg (log_Printf ["=> cacheArchiveFilePath: "; cacheArchiveFilePath]) ;;;
            log_Println "=> Downloading Cache [DONE]" ;;;
            (* Uncompress cache *)
            log_Println "=> Uncompressing Cache ..." ;;;
            err <- uncompressCaches cacheArchiveFilePath ;;
            match err with
            | Some err => log_Fatalf ["Failed to uncompress tar, error: "; Error err]
            | None =>
                log_Println "=> Uncompressing Cache [DONE]" ;;;
                log_Println "=> Finished" ;;;
                ret 0
            end
        end
  end.

End CacheDownload.

(** The error of [getCacheDownloadURL] for a status outside 200..202. *)
Definition not_initialised : error :=
  fmt_Errorf ["Build cache not found. Probably cache not initialised yet (first cache push initialises the cache), nothing to worry about ;)"].

(** The world in which [downloadFileWithRetry] starts to download: after
    the URL was resolved and, in debug mode, logged (lines 240-242). *)
Definition resolved_world (downloadURL : string) (w : World) : World :=
  (when (gIsDebugMode w) (log_Printf ["   [DEBUG] downloadURL: "; downloadURL]) w).2.

End CacheDownload.

(** ** Stand-ins for the imported libraries

    Small decoders to run the definitions on concrete inputs: a gzip whose
    ten-byte header is followed by the payload as it is, a tar whose entries
    are a type flag, the length of the name and the name, a JSON decoder of
    cache infos that always finds the same fingerprint, and a JSON decoder
    of the download URL that takes the whole text as the URL. *)

Module TestLibs.

Definition gzip_header_ok (bs : list byte) : bool :=
  match bs with
  | x1f :: x8b :: x08 :: _ => true
  | _ => false
  end.

Definition test_gzip_NewReader : ReadProg (error + unit) :=
  Call 10 (fun res =>
    match res.2 with
    | Some err => Ret (inl err)
    | None =>
        if gzip_header_ok res.1 then Ret (inr tt)
        else Ret (inl (errors_New "gzip: invalid header"))
    end).

Definition test_tar_Next (st : unit) : ReadProg ((error + Header) * unit) :=
  Call 2 (fun res =>
    match res.1 with
    | [] => Ret (inl io_EOF, st)
    | [flag; len] =>
        Call (Byte.to_nat len) (fun nm =>
          match nm.2 with
          | None => Ret (inr (mkHeader flag (string_of_list_byte nm.1) "" 420), st)
          | Some _ => Ret (inl (errors_New "unexpected EOF"), st)
          end)
    | _ => Ret (inl (errors_New "unexpected EOF"), st)
    end).

#[global] Instance test_libs : GoLibs := {|
  GzDec := unit;
  gzip_NewReader := test_gzip_NewReader;
  gzip_Read := fun n d => Call n (fun res => Ret (res, d));
  TarSt := unit;
  tar_init := tt;
  tar_Next := test_tar_Next;
  tar_Read := fun n st => Ret (([], Some io_EOF), st);
  json_Decode_CacheInfos :=
    Call MinRead (fun _ => Ret (inr (mkCacheInfosModel "fingerprint" [])));
  json_Unmarshal_DownloadURL := fun body =>
    inr (mkGenerateDownloadURLRespModel (string_of_list_byte body));
  http_NewRequest := fun _ => None
|}.

(** A raw archive with the one entry "./cache-info.json", and the same
    behind a gzip header. *)
Definition raw_archive : list byte :=
  ["0"; x11]%byte ++ list_byte_of_string "./cache-info.json".
Definition gz_archive : list byte :=
  [x1f; x8b; x08; x00; x00; x00; x00; x00; x00; x03]%byte ++ raw_archive.


(** Cache infos with one item, and two worlds to place it in: in the
    first the tar command leaves the temporary directory empty, in the
    second it puts the item there. *)
Definition one_item : CacheInfosModel :=
  mkCacheInfosModel "fingerprint" [mkCacheContentModel "/home/ci/lib" "lib"].
Definition item_missing_world : OS.World :=
  OS.mkWorld ∅ ∅ [] ["cache"] (fun _ _ m => (("", None), m)) "linux" false [].
Definition item_present_world : OS.World :=
  OS.mkWorld ∅ ∅ [] ["cache"]
             (fun dir _ m => (("x lib", None), <[dir +:+ "/lib" := OS.File [] 420]> m))
             "linux" false [].

(** A hard-link entry "a/b" whose recorded link name is "c", and a world
    in which the directory "a" holds the regular file "c". *)
Definition hard_link_header : Header := mkHeader TypeLink "a/b" "c" 420.
Definition hard_link_world : OS.World :=
  OS.mkWorld {[ "a" := OS.Directory; "a/c" := OS.File ["x"%byte] 420 ]}
             ∅ [] [] (fun _ _ m => (("", None), m)) "linux" false [].

(** A world in which the cache API answers 404 with an empty body. *)
Definition api_404_world : OS.World :=
  OS.mkWorld ∅ {[ "cache_api_url" := "https://api/cache" ]}
             [fun _ => inr (OS.mkResponse 404 (mkStream [] io_EOF))] []
             (fun _ _ m => (("", None), m)) "linux" false [].

(** A world with an empty file system and no network. *)
Definition empty_world : OS.World :=
  OS.mkWorld ∅ ∅ [] [] (fun _ _ m => (("", None), m)) "linux" false [].

End TestLibs.

(** ** Readers that cannot be told apart *)

Module Similar.

(** [similar r1 r2]: the two readers, of whatever kind, answer every
    sequence of reads alike. *)
Definition similar {R1} `{Reader R1} {R2} `{Reader R2} (r1 : R1) (r2 : R2) : Prop :=
  ∃ φ : R1 -> R2 -> Prop, simulates φ ∧ φ r1 r2.

(** What [readFirstEntry] makes of the first step of a tar reader: the
    header and the error it returns (lines 66-75). *)
Definition header_and_error (res : error + Header) : option Header * option error :=
  match res with
  | inl io_EOF => (None, None)
  | inl err => (None, Some err)
  | inr hdr => (Some hdr, None)
  end.

End Similar.
Export Similar.

(** ** Scanning an archive for the cache infos *)

Module Scan.
Section Scan.
Context `{GoLibs}.

(** [skips tr n tr']: starting at [tr], the next [n] entries of the archive
    all have a name other than "./cache-info.json", and after them the tar
    reader is [tr']. *)
Inductive skips {R} `{Reader R} : tar_Reader R -> nat -> tar_Reader R -> Prop :=
| skips_O (tr : tar_Reader R) : skips tr 0 tr
| skips_S (tr tr' tr'' : tar_Reader R) (header : Header) (n : nat) :
    Next tr = (inr header, tr') ->
    Name header ≠ "./cache-info.json" ->
    skips tr' n tr'' ->
    skips tr (S n) tr''.

(** What [readCacheInfoFromArchive] returns when its scan stops at [tr]
    with the step [res]: the end of the archive, a tar error, or the entry
    of the cache infos, decoded from the reader [tr']. *)
Definition scan_result {R} `{Reader R} (res : error + Header) (tr' : tar_Reader R)
  : CacheInfosModel * option error :=
  match res with
  | inl io_EOF =>
      (mkCacheInfosModel "" [],
       Some (errors_New "Did not find the required Cache Info file in the Archive"))
  | inl err =>
      (mkCacheInfosModel "" [],
       Some (fmt_Errorf ["Failed to read Archive, Tar error: "; Error err]))
  | inr _ =>
      match (run json_Decode_CacheInfos tr').1 with
      | inl err =>
          (mkCacheInfosModel "" [],
           Some (fmt_Errorf ["Failed to read Cache Info JSON from Archive: "; Error err]))
      | inr cacheInfos => (cacheInfos, None)
      end
  end.

End Scan.
End Scan.
Export Scan.

(** ** More observers of the record of events *)

Module Observers.
Import OS.

(** The commands that were started, with their working directories. *)
Definition execs_of (t : list Event) : list (string * list string) :=
  omap (fun e => match e with EvExec dir argv => Some (dir, argv) | _ => None end) t.

(** The symbolic links that were asked for. *)
Definition symlinks_of (t : list Event) : list (string * string) :=
  omap (fun e => match e with EvSymlink o n => Some (o, n) | _ => None end) t.

(** The events a download can leave: log lines, file creations, requests
    and sleeps. *)
Definition download_event (e : Event) : Prop :=
  match e with
  | EvLog _ | EvCreate _ | EvHttpGet _ | EvSleep _ => True
  | _ => False
  end.

(** The events of [t] that were not yet in the record of [w]. *)
Definition since (w : World) (t : list Event) : list Event := drop (length (trace w)) t.

End Observers.

(** ** archive.go: the tar command *)

(** [errorutil.IsExitStatusError] and [cmd.PrintableCommandArgs] of
    go-utils, which the sources import: whether an error is the exit status
    of a finished command, and the printable form of a command line. *)
Class GoUtils : Type := {
  IsExitStatusError : error -> bool;
  PrintableCommandArgs : list string -> string
}.

Module ArchiveCommands.
Import OS.
Local Open Scope go_scope.
Section ArchiveCommands.
Context `{GoUtils}.

(** [uncompressArchive] invokes tar tool against a local archive file. *)
Definition uncompressArchive (pth : string) : M (option error) :=
  let cmd := ["tar"; "-xPf"; pth] in
  r <- run_command "" cmd ;;
  let '(out, err) := r in
  match err with
  | Some err =>
      let errMsg := Error err in
      let errMsg := if IsExitStatusError err then out else errMsg in
      ret (Some (fmt_Errorf [PrintableCommandArgs cmd; " failed: "; errMsg]))
  | None => ret None
  end.

End ArchiveCommands.
End ArchiveCommands.

(** ** The second main.go: the world [main] downloads in *)

Module MainWorlds.
Import OS.

(** The state of the process when [main] calls [downloadFileWithRetry]
    (lines 255-274): the first log lines are out and [gIsDebugMode] is set
    from the environment. *)
Definition download_world (w : World) : World :=
  let dbg := bool_decide (default "" (environ w !! "is_debug_mode") = "true") in
  let url := default "" (environ w !! "cache_api_url") in
  set_trace
    (trace w ++ [EvLog "Cache pull..."] ++
     (if dbg then [EvLog (fmt_Sprintf ["=> stepParams: ";
                     CacheDownload.fmt_StepParamsModel
                       (CacheDownload.mkStepParamsModel url dbg)])]
      else []) ++
     [EvLog "=> Downloading Cache ..."])
    (set_gIsDebugMode dbg w).

End MainWorlds.

(** ** More sample inputs *)

Module Samples.
Import TestLibs.

#[global] Instance test_utils : GoUtils := {|
  IsExitStatusError := fun err => String.prefix "exit status " (Error err);
  PrintableCommandArgs := fun argv => String.concat " " argv
|}.

(** A gzip archive with the entries "a" and "./cache-info.json", on disk. *)
Definition two_entries : list byte :=
  [x1f; x8b; x08; x00; x00; x00; x00; x00; x00; x03]%byte ++
  ["0"; x01; "a"]%byte ++ raw_archive.
Definition two_entries_world : OS.World :=
  OS.mkWorld {[ "/tmp/cache.tar.gz" := OS.File two_entries 420 ]}
             ∅ [] [] (fun _ _ m => (("", None), m)) "linux" false [].

(** A world in which the first download is cut off after two bytes and
    the second one delivers the whole archive. *)
Definition flaky_world : OS.World :=
  OS.mkWorld ∅ ∅
    [fun _ => inr (OS.mkResponse 200 (mkStream ["x"; "y"]%byte
                                         (errors_New "unexpected EOF")));
     fun _ => inr (OS.mkResponse 200 (mkStream gz_archive io_EOF))]
    [] (fun _ _ m => (("", None), m)) "linux" false [].

(** A world in which the cache API answers with a download URL and the
    store delivers the archive; the tar command succeeds. *)
Definition api_ok_world : OS.World :=
  OS.mkWorld {[ "/tmp" := OS.Directory ]} {[ "cache_api_url" := "https://api/cache" ]}
    [fun _ => inr (OS.mkResponse 200
                     (mkStream (list_byte_of_string "https://store/archive") io_EOF));
     fun _ => inr (OS.mkResponse 200 (mkStream gz_archive io_EOF))]
    [] (fun _ _ m => (("", None), m)) "linux" false [].

(** A world in which the answer of the cache API breaks off while its body
    is read. *)
Definition api_broken_body_world : OS.World :=
  OS.mkWorld ∅ {[ "cache_api_url" := "https://api/cache" ]}
    [fun _ => inr (OS.mkResponse 404 (mkStream ["{"]%byte (errors_New "unexpected EOF")))]
    [] (fun _ _ m => (("", None), m)) "linux" false [].

(** A world in which the tar command fails with exit status 2. *)
Definition tar_fails_world : OS.World :=
  OS.mkWorld ∅ ∅ [] ["cache"]
    (fun _ _ m => (("tar: Error is not recoverable", Some (errors_New "exit status 2")), m))
    "linux" false [].

(** A pax extended header, a kind of entry [untarFile] does not know. *)
Definition pax_header : Header := mkHeader "x" "PaxHeaders/a" "" 420.

(** A symbolic link "bin/tool" to "../lib/tool". *)
Definition symlink_header : Header := mkHeader TypeSymlink "bin/tool" "../lib/tool" 493.

End Samples.

(* ===================================================================== *)
(** * Part II: lemmas and theorems *)
(* ===================================================================== *)

(** ** Readers *)

Section ReaderFacts.

Lemma Stream_Read_fst (n : nat) (s : Stream) :
  (Read n s).1 =
    if decide (n ≤ length (data s))%nat then (take n (data s), None)
    else (data s, Some (term s)).
Proof. unfold Read, Stream_Reader. by case_decide. Qed.

Lemma Stream_Read_snd (n : nat) (s : Stream) :
  (Read n s).2 =
    if decide (n ≤ length (data s))%nat then mkStream (drop n (data s)) (term s)
    else mkStream [] (term s).
Proof. unfold Read, Stream_Reader. by case_decide. Qed.

(** A read splits the stream into what it returns and what is left. *)
Lemma Stream_Read_data (n : nat) (s : Stream) :
  data s = (Read n s).1.1 ++ data (Read n s).2.
Proof.
  rewrite Stream_Read_fst, Stream_Read_snd. case_decide; simpl.
  - by rewrite take_drop.
  - by rewrite app_nil_r.
Qed.

Lemma Stream_Read_term (n : nat) (s : Stream) : term (Read n s).2 = term s.
Proof. rewrite Stream_Read_snd. by case_decide. Qed.

Lemma delivers_Stream (s : Stream) : delivers s s.
Proof. exists eq. split; [|done]. intros r1 r2 n ->. done. Qed.

Context {R : Type} `{Reader R}.

Lemma delivers_Read (r : R) (s : Stream) (n : nat) :
  delivers r s ->
  (Read n r).1 = (Read n s).1 ∧ delivers (Read n r).2 (Read n s).2.
Proof.
  intros (φ & Hsim & Hφ). destruct (Hsim r s n Hφ) as [Heq Hnext].
  split; [done|]. by exists φ.
Qed.

(** No program over a reader tells it from the stream it delivers. *)
Lemma delivers_run {A} (p : ReadProg A) (r : R) (s : Stream) :
  delivers r s ->
  (run p r).1 = (run p s).1 ∧ delivers (run p r).2 (run p s).2.
Proof.
  revert r s. induction p as [a|n k IH]; intros r s Hd; simpl; [done|].
  destruct (delivers_Read r s n Hd) as [Heq Hnext].
  destruct (Read n r) as [res r'], (Read n s) as [res' s']. simpl in *. subst res'.
  by apply IH.
Qed.

Lemma ReadAll_from_delivers (fuel : nat) (acc : list byte) (r : R) (s : Stream) :
  delivers r s ->
  fst <$> ReadAll_from fuel acc r = fst <$> ReadAll_from fuel acc s.
Proof.
  revert acc r s. induction fuel as [|fuel IH]; intros acc r s Hd; simpl; [done|].
  destruct (delivers_Read r s MinRead Hd) as [Heq Hnext].
  destruct (Read MinRead r) as [[bs e] r'], (Read MinRead s) as [[bs' e'] s'].
  simpl in *. simplify_eq. destruct e' as [[|msg]|]; simpl; [done..|].
  by apply IH.
Qed.

End ReaderFacts.

(** [ioutil.ReadAll] comes to the end of every stream, and the bound only
    has to exceed the length of the stream. *)
Lemma ReadAll_from_Stream (fuel : nat) (acc : list byte) (s : Stream) :
  (length (data s) < fuel)%nat ->
  ReadAll_from fuel acc s =
    Some ((acc ++ data s, if decide (term s = io_EOF) then None else Some (term s)),
          mkStream [] (term s)).
Proof.
  revert acc s. induction fuel as [|fuel IH]; intros acc [d t] Hlen; simpl in *; [lia|].
  unfold Read, Stream_Reader, MinRead. simpl. case_decide as Hle.
  - rewrite IH; simpl.
    + by rewrite <- (assoc (++)), take_drop.
    + rewrite length_drop. lia.
  - destruct t; by case_decide.
Qed.

Lemma ReadAll_Stream (fuel : nat) (s : Stream) :
  (length (data s) < fuel)%nat ->
  fst <$> ReadAll fuel s = Some (OS.ioutil_ReadAll s).
Proof. intros Hlen. unfold ReadAll. by rewrite ReadAll_from_Stream. Qed.

(** ** RestorableStream *)

Section RestoreFacts.
Context {R : Type} `{Reader R}.

Lemma recording_New (r : R) (S : Stream) :
  delivers r S -> recording S (NewRestoreReader r).
Proof. intros Hd. split; [done|]. by exists S. Qed.

Lemma recording_Read (S : Stream) (rr : RestoreReader R) (n : nat) :
  recording S rr -> recording S (Read n rr).2.
Proof.
  intros [Hrep (rest & Hd & Hdata & Hterm)].
  unfold Read at 1, RestoreReader_Reader. rewrite Hrep.
  destruct (delivers_Read _ _ n Hd) as [Heq Hnext].
  pose proof (Stream_Read_data n rest) as Hsplit.
  pose proof (Stream_Read_term n rest) as Ht.
  destruct (Read n (original rr)) as [[bs e] o']. simpl in *.
  split; [done|]. exists (Read n rest).2. simpl. split_and!; [done| |congruence].
  rewrite Hdata, Hsplit, <- Heq. simpl. by rewrite (assoc (++)).
Qed.

(** Whatever a decoder reads while it probes, nothing is lost. *)
Lemma recording_run {A} (p : ReadProg A) (S : Stream) (rr : RestoreReader R) :
  recording S rr -> recording S (run p rr).2.
Proof.
  revert rr. induction p as [a|n k IH]; intros rr Hrec; simpl; [done|].
  pose proof (recording_Read S rr n Hrec) as Hnext.
  destruct (Read n rr) as [res rr']. by apply IH.
Qed.

Lemma replaying_simulates : simulates (@replaying R _).
Proof.
  intros rr S n (q & rest & Hrep & Hd & Hdata & Hterm).
  unfold Read at 1 3, RestoreReader_Reader. rewrite Hrep.
  rewrite Stream_Read_fst, Stream_Read_snd, Hdata, length_app.
  destruct (decide (n ≤ length q)%nat) as [Hq|Hq]; simpl.
  - destruct (decide (n ≤ length q + length (data rest))%nat); [|lia]. split.
    + by rewrite take_app_le.
    + exists (drop n q), rest. simpl. split_and!; [done..| |done].
      by rewrite drop_app_le.
  - destruct (delivers_Read _ _ (n - length q) Hd) as [Heq Hnext].
    rewrite Stream_Read_fst in Heq. rewrite Stream_Read_snd in Hnext.
    destruct (Read (n - length q) (original rr)) as [[bs e] o']. simpl in *.
    destruct (decide (n - length q ≤ length (data rest))%nat) as [Hrest|Hrest];
      (destruct (decide (n ≤ length q + length (data rest))%nat); [try lia|try lia]);
      simplify_eq; simpl.
    + split; [by rewrite take_app_ge by lia|].
      eexists [], _. split_and!; [done|exact Hnext| |done].
      simpl. by rewrite drop_app_ge by lia.
    + split; [by rewrite Hterm|].
      eexists [], _. split_and!; [done|exact Hnext|done|done].
Qed.

Lemma replaying_delivers (rr : RestoreReader R) (S : Stream) :
  replaying rr S -> delivers rr S.
Proof. intros Hrep. exists (@replaying R _). split; [apply replaying_simulates|done]. Qed.

(** After the speculative reads, [Restore] succeeds and the reader it
    gives cannot be told from the wrapped stream. *)
Lemma recording_Restore (S : Stream) (rr : RestoreReader R) :
  recording S rr ->
  ∃ rr', Restore rr = Some rr' ∧ is_Some (replay rr') ∧ delivers rr' S.
Proof.
  intros [Hrep (rest & Hd & Hdata & Hterm)]. unfold Restore. rewrite Hrep.
  eexists. split_and!; [done|by eexists|].
  apply replaying_delivers. by exists (buff rr), rest.
Qed.

(** A second [Restore] is the fatal error. *)
Lemma Restore_twice (rr rr' : RestoreReader R) :
  Restore rr = Some rr' -> Restore rr' = None.
Proof. unfold Restore. destruct (replay rr); intros; by simplify_eq. Qed.

End RestoreFacts.

(** C2. Restore fidelity: for every byte sequence [S] and every prefix
    length [k] from 0 to the length of [S], a restorable stream that wraps
    [S] gives the first [k] bytes to a read of [k] bytes, accepts
    [Restore], and then, read to exhaustion, yields exactly [S] with no
    error (for every bound of [ReadAll] above the length of [S]). *)
Theorem restore_fidelity (S : list byte) (k fuel : nat) :
  (k ≤ length S)%nat ->
  (length S < fuel)%nat ->
  let rr := NewRestoreReader (mkStream S io_EOF) in
  (Read k rr).1 = (take k S, None) ∧
  fst <$> (Restore (Read k rr).2 ≫= ReadAll fuel) = Some (S, None).
Proof.
  intros Hk Hfuel rr. subst rr. split.
  - unfold Read at 1, RestoreReader_Reader. simpl.
    pose proof (Stream_Read_fst k (mkStream S io_EOF)) as Hfst.
    destruct (Read k _) as [[bs e] o']. simpl in *. rewrite Hfst.
    by rewrite decide_True.
  - pose proof (recording_New _ _ (delivers_Stream (mkStream S io_EOF))) as Hrec.
    apply (recording_Read _ _ k) in Hrec.
    destruct (recording_Restore _ _ Hrec) as (rr' & -> & _ & Hd). simpl.
    unfold ReadAll. rewrite (ReadAll_from_delivers _ _ _ _ Hd).
    by rewrite ReadAll_from_Stream.
Qed.

Lemma restore_fidelity_witness :
  let S := TestLibs.gz_archive in
  (4 ≤ length S)%nat ∧ (length S < 30)%nat ∧
  (Read 4 (NewRestoreReader (mkStream S io_EOF))).1 = (take 4 S, None) ∧
  fst <$> (Restore (Read 4 (NewRestoreReader (mkStream S io_EOF))).2 ≫= ReadAll 30)
    = Some (S, None).
Proof.
  intros S.
  assert (H1 : (4 ≤ length S)%nat) by (vm_compute; lia).
  assert (H2 : (length S < 30)%nat) by (vm_compute; lia).
  split; [exact H1|]. split; [exact H2|].
  exact (restore_fidelity S 4 30 H1 H2).
Defined.

(** ** archive.go *)

Section ArchiveFacts.
Context `{GoLibs}.

Lemma gzip_open_snd {R} `{Reader R} (r : R) :
  (gzip_open r).2 = (run gzip_NewReader r).2.
Proof. unfold gzip_open. by destruct (run gzip_NewReader r) as [[e|d] r']. Qed.

Lemma gzip_open_fst {R} `{Reader R} (r : R) :
  (gzip_open r).1 =
    match (run gzip_NewReader r).1 with
    | inl err => inl err
    | inr d => inr (mk_gzip_Reader d (run gzip_NewReader r).2)
    end.
Proof. unfold gzip_open. by destruct (run gzip_NewReader r) as [[e|d] r']. Qed.

Lemma Read_recording {R} `{Reader R} (rr : RestoreReader R) (n : nat) :
  replay rr = None ->
  Read n rr =
    ((Read n (original rr)).1,
     mkRestoreReader (Read n (original rr)).2
                     (buff rr ++ (Read n (original rr)).1.1) None).
Proof.
  intros Hrep. unfold Read at 1, RestoreReader_Reader. rewrite Hrep.
  by destruct (Read n (original rr)) as [[bs e] o'].
Qed.

Lemma Read_AsGzip {R} `{Reader R} (z : gzip_Reader (RestoreReader R)) (n : nat) :
  Read n (AsGzip z) = ((Read n z).1, AsGzip (Read n z).2).
Proof. unfold Read at 1, archive_Reader_Reader. by destruct (Read n z). Qed.

Lemma Read_AsRestore {R} `{Reader R} (rr : RestoreReader R) (n : nat) :
  Read n (AsRestore rr) = ((Read n rr).1, AsRestore (Read n rr).2).
Proof. unfold Read at 1, archive_Reader_Reader. by destruct (Read n rr). Qed.

(** A recording reader answers as the source under it does. *)
Lemma recording_delivers {R} `{Reader R} (rr : RestoreReader R) (s : Stream) :
  replay rr = None -> delivers (original rr) s -> delivers rr s.
Proof.
  intros Hrep Hd.
  exists (fun rr s => replay rr = None ∧ delivers (original rr) s). split; [|done].
  clear. intros rr s n [Hrep Hd].
  rewrite Read_recording by done. simpl.
  destruct (delivers_Read _ _ n Hd) as [Heq Hnext]. done.
Qed.


Lemma AsRestore_delivers {R} `{Reader R} (rr : RestoreReader R) (s : Stream) :
  delivers rr s -> delivers (AsRestore rr) s.
Proof.
  intros Hd.
  exists (fun a s => ∃ rr, a = AsRestore rr ∧ delivers rr s). split; [|by exists rr].
  clear. intros a s n (rr & -> & Hd).
  destruct (delivers_Read _ _ n Hd) as [Heq Hnext].
  rewrite Read_AsRestore. simpl. split; [done|]. by eexists.
Qed.


(** What the gzip attempt leaves behind when it fails: a reader that
    [Restore] turns back into the stream. *)
Lemma gzip_open_Restore (s : Stream) :
  ∃ rr', Restore (gzip_open (NewRestoreReader s)).2 = Some rr' ∧
         is_Some (replay rr') ∧ delivers rr' s.
Proof.
  rewrite gzip_open_snd. apply recording_Restore, recording_run, recording_New.
  apply delivers_Stream.
Qed.

Lemma gzip_open_recording (s : Stream) (z : gzip_Reader (RestoreReader Stream)) :
  (gzip_open (NewRestoreReader s)).1 = inr z -> replay (gz_r z) = None.
Proof.
  rewrite gzip_open_fst. intros Hz.
  pose proof (recording_run gzip_NewReader s (NewRestoreReader s)
                (recording_New _ _ (delivers_Stream s))) as [Hrep _].
  destruct (run gzip_NewReader (NewRestoreReader s)) as [[e|d] rr]; simpl in *;
    by simplify_eq.
Qed.

Lemma gzip_open_gz_r {R} `{Reader R} (r : R) (z : gzip_Reader R) :
  (gzip_open r).1 = inr z -> gz_r z = (gzip_open r).2.
Proof.
  unfold gzip_open. destruct (run gzip_NewReader r) as [[e|d] r']; simpl;
    intros; by simplify_eq.
Qed.

Lemma readFirstEntry_snd (s : Stream) :
  (readFirstEntry s).2 = readFirstEntry_next <$> (readFirstEntry_archive s).2.
Proof. unfold readFirstEntry. by destruct (readFirstEntry_archive s). Qed.

Lemma readFirstEntry_next_cases (a : archive_Reader Stream) :
  match (Next (tar_NewReader a)).1 with
  | inl io_EOF => readFirstEntry_next a = (None, None, None)
  | inl err => readFirstEntry_next a = (None, None, Some err)
  | inr hdr => readFirstEntry_next a = (Some (Next (tar_NewReader a)).2, Some hdr, None)
  end.
Proof.
  unfold readFirstEntry_next. by destruct (Next (tar_NewReader a)) as [[[|msg]|hdr] tr].
Qed.

(** The two ways [readFirstEntry] settles on an archive reader. *)
Lemma readFirstEntry_archive_cases (s : Stream) :
  let attempt := gzip_open (NewRestoreReader s) in
  match attempt.1 with
  | inr z =>
      readFirstEntry_archive s =
        ([log_Debugf ["attempt to read archive as .gzip"]], Some (AsGzip z)) ∧
      gz_r z = attempt.2 ∧
      replay (gz_r z) = None
  | inl err =>
      ∃ rr',
        Restore attempt.2 = Some rr' ∧
        readFirstEntry_archive s =
          ([log_Debugf ["attempt to read archive as .gzip"];
            log_Debugf ["failed to open the archive as .gzip: "; Error err];
            log_Debugf ["restoring reader and trying as .tar"]],
           Some (AsRestore rr')) ∧
        is_Some (replay rr') ∧
        delivers rr' s
  end.
Proof.
  intros attempt. subst attempt.
  destruct (gzip_open_Restore s) as (rr' & Hres & Hrep & Hd).
  pose proof (gzip_open_recording s) as Hrec.
  pose proof (gzip_open_gz_r (NewRestoreReader s)) as Hgz.
  unfold readFirstEntry_archive.
  destruct (gzip_open (NewRestoreReader s)) as [[err|z] rr]; simpl in *.
  - exists rr'. by rewrite Hres.
  - split_and!; [done|by apply Hgz|by apply Hrec].
Qed.





End ArchiveFacts.

Section TestLibsFacts.
Import TestLibs.




End TestLibsFacts.

(** ** The operating system *)

Section OSFacts.
Import Filepath OS.
Local Open Scope go_scope.

Lemma os_Create_spec (name : string) (w : World) :
  let w1 := set_trace (trace w ++ [EvCreate name]) w in
  os_Create name w =
    if is_dir (fs w) (Dir name) then
      match fs w !! name with
      | None => (inr name, set_fs (<[name := File [] 438]> (fs w)) w1)
      | Some (File _ mode) => (inr name, set_fs (<[name := File [] mode]> (fs w)) w1)
      | Some Directory => (inl (PathError "open" name "is a directory"), w1)
      | Some (Symlink _) =>
          (inl (PathError "open" name "too many levels of symbolic links"), w1)
      end
    else (inl (PathError "open" name "no such file or directory"), w1).
Proof. reflexivity. Qed.

Lemma http_Get_spec (url : string) (w : World) :
  let w1 := set_trace (trace w ++ [EvHttpGet url]) w in
  http_Get url w =
    match net w with
    | [] => (inl (errors_New ("Get " +:+ url +:+ ": dial tcp: no route to host")), w1)
    | answer :: rest => (answer url, set_net rest w1)
    end.
Proof. reflexivity. Qed.

(** [os.Create] either fails and leaves the files alone, or leaves an
    empty regular file under the name. *)
Lemma os_Create_cases (name : string) (w : World) :
  trace (os_Create name w).2 = trace w ++ [EvCreate name] ∧
  net (os_Create name w).2 = net w ∧
  gIsDebugMode (os_Create name w).2 = gIsDebugMode w ∧
  match (os_Create name w).1 with
  | inl _ => fs (os_Create name w).2 = fs w
  | inr out =>
      out = name ∧
      ∃ mode, fs (os_Create name w).2 = <[name := File [] mode]> (fs w)
  end.
Proof.
  rewrite os_Create_spec. simpl.
  destruct (is_dir (fs w) (Dir name)); [|done].
  destruct (fs w !! name) as [[c m| |t]|]; simpl; split_and!; eauto.
Qed.

Lemma World_eta (w : World) :
  mkWorld (fs w) (environ w) (net w) (tmp_names w) (exec w) (GOOS w)
          (gIsDebugMode w) (trace w) = w.
Proof. by destruct w. Qed.

(** The first [main.go]: what one download attempt does. *)
Lemma downloadFile_cases (url localPath : string) (w w' : World) (res : option error) :
  CachePull.downloadFile url localPath w = (res, w') ->
  match (os_Create localPath w).1 with
  | inl err =>
      res = Some (fmt_Errorf ["Failed to open the local cache file for write: "; Error err]) ∧
      trace w' = trace w ++ [EvCreate localPath] ∧
      fs w' = fs w ∧ net w' = net w ∧ gIsDebugMode w' = gIsDebugMode w
  | inr _ =>
      ∃ mode logs,
        only_logs logs ∧
        trace w' = trace w ++ [EvCreate localPath; EvHttpGet url] ++ logs ∧
        net w' = tail (net w) ∧ gIsDebugMode w' = gIsDebugMode w ∧
        match (http_Get url (os_Create localPath w).2).1 with
        | inl err =>
            res = Some (fmt_Errorf ["Failed to create cache download request: "; Error err]) ∧
            fs w' = <[localPath := File [] mode]> (fs w)
        | inr resp =>
            if decide (StatusCode resp = 200) then
              fs w' = <[localPath := File (data (Body resp)) mode]> (fs w) ∧
              res = (if decide (term (Body resp) = io_EOF) then None
                     else Some (fmt_Errorf ["Failed to save cache content into file: ";
                                            Error (term (Body resp))]))
            else
              res = Some (fmt_Errorf ["Failed to download archive - non success response code: ";
                                      fmt_d (StatusCode resp)]) ∧
              fs w' = <[localPath := File [] mode]> (fs w)
        end
  end.
Proof.
  unfold CachePull.downloadFile, bind, ret, Close.
  destruct (os_Create_cases localPath w) as (Htr & Hnet & Hdbg & Hfs).
  destruct (os_Create localPath w) as [[err|out] w1]; simpl in *.
  { intros; by simplify_eq. }
  destruct Hfs as (-> & mode & Hfs).
  rewrite http_Get_spec. simpl. rewrite <- Hnet.
  destruct (net w1) as [|answer rest] eqn:Hnw; simpl.
  { intros ?; simplify_eq. exists mode, []. simpl.
    rewrite Htr, Hfs, Hdbg, <- (assoc (++)). split_and!; first [done|by constructor|idtac]. }
  destruct (answer url) as [err|resp]; simpl.
  { intros ?; simplify_eq. exists mode, []. simpl.
    rewrite Htr, Hfs, Hdbg, <- (assoc (++)). split_and!; first [done|by constructor|idtac]. }
  destruct (decide (StatusCode resp = 200)) as [H200|H200].
  - rewrite decide_False by (intros ?; done).
    unfold io_Copy. simpl. rewrite Hfs, lookup_insert_eq. simpl.
    intros ?. exists mode, []. case_decide; simplify_eq; simpl;
      rewrite Htr, Hdbg, <- (assoc (++)), insert_insert_eq;
      split_and!; first [done|by constructor|idtac].
  - rewrite decide_True by done.
    unfold ioutil_ReadAll, log_Printf, emit, ret. simpl.
    intros ?. exists mode. case_decide; simplify_eq; simpl; eexists;
      rewrite Htr, Hfs, Hdbg, <- !(assoc (++));
      (split_and!; [|done..]); repeat constructor; by eexists.
Qed.

Lemma omap_logs {B} (f : Event -> option B) (evs : list Event) :
  (∀ msg, f (EvLog msg) = None) -> only_logs evs -> omap f evs = [].
Proof.
  intros Hf. induction 1 as [|e evs [msg ->] _ IH]; [done|].
  simpl. by rewrite Hf.
Qed.

Lemma only_logs_observers (evs : list Event) :
  only_logs evs ->
  creates_of evs = [] ∧ requests_of evs = [] ∧ sleeps_of evs = [] ∧
  mkdirs_of evs = [] ∧ renames_of evs = [].
Proof.
  intros Hlogs. unfold creates_of, requests_of, sleeps_of, mkdirs_of, renames_of.
  split_and!; by apply omap_logs.
Qed.

(** One attempt is one call of [os.Create], at most one request and no
    sleep. *)
Lemma downloadFile_events (url localPath : string) (w : World) :
  let r := CachePull.downloadFile url localPath w in
  ∃ evs, trace r.2 = trace w ++ EvCreate localPath :: evs ∧
         creates_of evs = [] ∧ sleeps_of evs = [] ∧
         (requests_of evs = [] ∨ requests_of evs = [url]) ∧
         gIsDebugMode r.2 = gIsDebugMode w.
Proof.
  simpl. destruct (CachePull.downloadFile url localPath w) as [res w'] eqn:Hrun.
  apply downloadFile_cases in Hrun. simpl.
  destruct ((os_Create localPath w).1).
  - destruct Hrun as (_ & -> & _ & _ & ->). exists []. split_and!; auto.
  - destruct Hrun as (mode & logs & Hlogs & -> & _ & -> & _).
    destruct (only_logs_observers _ Hlogs) as (Hc & Hr & Hs & _).
    exists (EvHttpGet url :: logs). split_and!; [done..| |done].
    right. change (requests_of (EvHttpGet url :: logs)) with (url :: requests_of logs).
    by rewrite Hr.
Qed.

Lemma creates_of_app (a b : list Event) :
  creates_of (a ++ b) = creates_of a ++ creates_of b.
Proof. apply omap_app. Qed.

Lemma sleeps_of_app (a b : list Event) :
  sleeps_of (a ++ b) = sleeps_of a ++ sleeps_of b.
Proof. apply omap_app. Qed.

Lemma requests_of_app (a b : list Event) :
  requests_of (a ++ b) = requests_of a ++ requests_of b.
Proof. apply omap_app. Qed.

Lemma mkdirs_of_app (a b : list Event) :
  mkdirs_of (a ++ b) = mkdirs_of a ++ mkdirs_of b.
Proof. apply omap_app. Qed.

(** The retry of the first [main.go], step by step. *)
Lemma downloadFileWithRetry_cases (url localPath : string) (w : World) :
  let first := CachePull.downloadFile url localPath w in
  let r := CachePull.downloadFileWithRetry url localPath w in
  match first.1 with
  | None =>
      r = (None, first.2) ∧
      ∃ evs, trace r.2 = trace w ++ evs ∧
             creates_of evs = [localPath] ∧ sleeps_of evs = []
  | Some _ =>
      let w1 := set_trace (trace first.2 ++
                  [EvLog ""; EvLog " ===> (!) First download attempt failed, retrying...";
                   EvLog ""; EvSleep 3000]) first.2 in
      r = CachePull.downloadFile url localPath w1 ∧
      ∃ evs, trace r.2 = trace w ++ evs ∧
             creates_of evs = [localPath; localPath] ∧ sleeps_of evs = [3000]
  end.
Proof.
  simpl.
  destruct (downloadFile_events url localPath w) as (evs1 & Ht1 & Hc1 & Hs1 & _).
  destruct (CachePull.downloadFile url localPath w) as [[e|] w1] eqn:Hfirst; simpl in *.
  - set (w1' := set_trace _ w1).
    assert (CachePull.downloadFileWithRetry url localPath w =
              CachePull.downloadFile url localPath w1') as ->.
    { unfold CachePull.downloadFileWithRetry, bind. rewrite Hfirst.
      unfold fmt_Println, log_Printf, time_Sleep, emit, w1', set_trace. simpl.
      by rewrite <- !(assoc (++)). }
    split; [done|].
    destruct (downloadFile_events url localPath w1') as (evs2 & Ht2 & Hc2 & Hs2 & _).
    rewrite Ht2. unfold w1'. simpl. rewrite Ht1.
    eexists. split; [by rewrite <- !(assoc (++))|].
    rewrite !creates_of_app, !sleeps_of_app.
    change (creates_of (EvCreate localPath :: evs1)) with (localPath :: creates_of evs1).
    change (sleeps_of (EvCreate localPath :: evs1)) with (sleeps_of evs1).
    rewrite Hc1, Hs1. simpl.
    change (creates_of (EvCreate localPath :: evs2)) with (localPath :: creates_of evs2).
    change (sleeps_of (EvCreate localPath :: evs2)) with (sleeps_of evs2).
    by rewrite Hc2, Hs2.
  - assert (CachePull.downloadFileWithRetry url localPath w = (None, w1)) as ->.
    { unfold CachePull.downloadFileWithRetry, bind. by rewrite Hfirst. }
    split; [done|]. simpl. rewrite Ht1. eexists. split; [done|].
    change (creates_of (EvCreate localPath :: evs1)) with (localPath :: creates_of evs1).
    change (sleeps_of (EvCreate localPath :: evs1)) with (sleeps_of evs1).
    by rewrite Hc1, Hs1.
Qed.

End OSFacts.

(** ** The two main.go: downloading *)

Section DownloadFacts.
Import Filepath OS.
Context `{GoLibs}.

(** The second [main.go] took [downloadFile] over unchanged. *)
Lemma downloadFile_same : CacheDownload.downloadFile = CachePull.downloadFile.
Proof. reflexivity. Qed.

(** Resolving the download URL makes one request at most and touches
    nothing else. *)
Lemma getCacheDownloadURL_world (cacheAPIURL : string) (w : World) :
  (CacheDownload.getCacheDownloadURL cacheAPIURL w).2 =
    match http_NewRequest cacheAPIURL with
    | Some _ => w
    | None => (http_Get cacheAPIURL w).2
    end.
Proof.
  unfold CacheDownload.getCacheDownloadURL.
  destruct (http_NewRequest cacheAPIURL); [done|].
  unfold bind, ret, Close.
  destruct (http_Get cacheAPIURL w) as [[err|resp] w1]; [done|]. simpl.
  unfold ioutil_ReadAll. repeat case_match; by simplify_eq.
Qed.

Lemma getCacheDownloadURL_events (cacheAPIURL : string) (w : World) :
  let g := CacheDownload.getCacheDownloadURL cacheAPIURL w in
  fs g.2 = fs w ∧ gIsDebugMode g.2 = gIsDebugMode w ∧
  ∃ evs, trace g.2 = trace w ++ evs ∧ creates_of evs = [] ∧ sleeps_of evs = [] ∧
         (evs = [] ∨ evs = [EvHttpGet cacheAPIURL]).
Proof.
  simpl. rewrite getCacheDownloadURL_world.
  destruct (http_NewRequest cacheAPIURL).
  - split_and!; [done..|]. exists []. rewrite app_nil_r. auto.
  - rewrite http_Get_spec. simpl.
    destruct (net w); simpl; (split_and!; [done..|]); eexists; split_and!; eauto.
Qed.

(** What [getCacheDownloadURL] answers once the response is there and
    its body was read. *)
Lemma getCacheDownloadURL_response (cacheAPIURL : string) (w : World) (resp : Response) :
  http_NewRequest cacheAPIURL = None ->
  (http_Get cacheAPIURL w).1 = inr resp ->
  term (Body resp) = io_EOF ->
  (CacheDownload.getCacheDownloadURL cacheAPIURL w).1 =
    if decide (StatusCode resp < 200 ∨ StatusCode resp > 202) then
      ("", Some (fmt_Errorf
        ["Build cache not found. Probably cache not initialised yet (first cache push initialises the cache), nothing to worry about ;)"]))
    else
      match json_Unmarshal_DownloadURL (data (Body resp)) with
      | inl _ =>
          ("", Some (fmt_Errorf
            ["Request sent, but failed to parse JSON response (http-code:";
             fmt_d (StatusCode resp); "): "; fmt_bytes (data (Body resp))]))
      | inr respModel =>
          if decide (DownloadURL respModel = "") then
            ("", Some (fmt_Errorf
              ["Request sent, but Download URL is empty (http-code:";
               fmt_d (StatusCode resp); "): "; fmt_bytes (data (Body resp))]))
          else (DownloadURL respModel, None)
      end.
Proof.
  intros Hreq Hget Hbody. unfold CacheDownload.getCacheDownloadURL. rewrite Hreq.
  unfold bind, ret, Close.
  destruct (http_Get cacheAPIURL w) as [[err|resp'] w1]; simpl in *; simplify_eq.
  unfold ioutil_ReadAll. rewrite Hbody. rewrite decide_True by done.
  repeat case_match; by simplify_eq.
Qed.

(** The second [main.go] resolves the URL and then retries as the first
    one does. *)
Lemma downloadFileWithRetry_resolved (cacheAPIURL localPath : string) (w : World) :
  let g := CacheDownload.getCacheDownloadURL cacheAPIURL w in
  CacheDownload.downloadFileWithRetry cacheAPIURL localPath w =
    match g.1.2 with
    | Some err => (Some err, g.2)
    | None => CachePull.downloadFileWithRetry g.1.1 localPath (CacheDownload.resolved_world g.1.1 g.2)
    end.
Proof.
  simpl. unfold CacheDownload.downloadFileWithRetry, bind at 1.
  destruct (CacheDownload.getCacheDownloadURL cacheAPIURL w) as [[u [err|]] w1];
    [done|]. simpl.
  unfold CacheDownload.resolved_world, bind at 1, get_gIsDebugMode, bind at 1.
  by destruct (when (gIsDebugMode w1) _ w1) as [[] w2].
Qed.

(** C10. A download attempt is not atomic on the file system.  Every
    call of [downloadFile] begins with [os.Create] of the local path, and
    a request is made only after the file was created or truncated.  So
    when the attempt then fails, the file is there: empty after a
    transport error, empty after a status other than 200, and holding
    what arrived before the failure when the copy of the body is
    interrupted.  There is a failing attempt after which the file system
    differs from the one before.  Both [main.go] have the same
    [downloadFile]. *)
Theorem downloadFile_not_atomic :
  (∀ (url localPath : string) (w : World),
      let r := CachePull.downloadFile url localPath w in
      (∃ evs, trace r.2 = trace w ++ EvCreate localPath :: evs ∧ creates_of evs = []) ∧
      match (os_Create localPath w).1 with
      | inl _ => is_Some r.1 ∧ requests_of (drop (length (trace w)) (trace r.2)) = []
      | inr _ =>
          requests_of (drop (length (trace w)) (trace r.2)) = [url] ∧
          match (http_Get url (os_Create localPath w).2).1 with
          | inl _ =>
              is_Some r.1 ∧ ∃ mode, fs r.2 !! localPath = Some (File [] mode)
          | inr resp =>
              if decide (StatusCode resp = 200) then
                (∃ mode, fs r.2 !! localPath = Some (File (data (Body resp)) mode)) ∧
                (is_Some r.1 ↔ term (Body resp) ≠ io_EOF)
              else
                is_Some r.1 ∧ ∃ mode, fs r.2 !! localPath = Some (File [] mode)
          end
      end) ∧
  (∃ (url localPath : string) (w : World),
      is_Some (CachePull.downloadFile url localPath w).1 ∧
      fs (CachePull.downloadFile url localPath w).2 ≠ fs w) ∧
  CacheDownload.downloadFile = CachePull.downloadFile.
Proof.
  split_and!; [|..|reflexivity].
  - intros url localPath w r. subst r. split.
    { destruct (downloadFile_events url localPath w) as (evs & ? & ? & _). eauto. }
    destruct (CachePull.downloadFile url localPath w) as [res w'] eqn:Hrun.
    apply downloadFile_cases in Hrun. simpl.
    destruct ((os_Create localPath w).1).
    + destruct Hrun as (-> & -> & _). split; [by eexists|].
      by rewrite drop_app_length.
    + destruct Hrun as (mode & logs & Hlogs & -> & _ & _ & Hres).
      destruct (only_logs_observers _ Hlogs) as (_ & Hr & _).
      split.
      { rewrite drop_app_length.
        change (requests_of ([EvCreate localPath; EvHttpGet url] ++ logs))
          with (url :: requests_of logs).
        by rewrite Hr. }
      destruct ((http_Get url (os_Create localPath w).2).1) as [err|resp].
      * destruct Hres as [-> ->]. split; [by eexists|].
        exists mode. by rewrite lookup_insert_eq.
      * destruct (decide (StatusCode resp = 200)).
        -- destruct Hres as [-> ->]. split.
           ++ exists mode. by rewrite lookup_insert_eq.
           ++ case_decide; split; intros Hx; try done; by destruct Hx.
        -- destruct Hres as [-> ->]. split; [by eexists|].
           exists mode. by rewrite lookup_insert_eq.
  - exists "http://cache/archive", "cache.tar", TestLibs.empty_world. split.
    + vm_compute. by eexists.
    + intros Heq. apply (f_equal (fun m => m !! "cache.tar")) in Heq.
      vm_compute in Heq. discriminate.
Qed.

(** C6. The retrying download makes two fetch attempts at most.  In the
    first [main.go] it calls [downloadFile] once; when that succeeds it
    returns nil after this one attempt and without a sleep; when it fails
    it logs, sleeps 3000 ms once and calls [downloadFile] a second and last
    time, whose result, error included, is the result of the whole.  In the
    second [main.go] the download URL is resolved first: when that fails
    its error is returned and nothing is fetched, otherwise the same
    retry runs on the resolved URL. *)
Theorem at_most_two_fetch_attempts :
  (∀ (url localPath : string) (w : World),
      let first := CachePull.downloadFile url localPath w in
      let r := CachePull.downloadFileWithRetry url localPath w in
      let evs := drop (length (trace w)) (trace r.2) in
      trace r.2 = trace w ++ evs ∧
      (1 ≤ length (creates_of evs) ≤ 2)%nat ∧
      match first.1 with
      | None =>
          r = (None, first.2) ∧ creates_of evs = [localPath] ∧ sleeps_of evs = []
      | Some _ =>
          r = CachePull.downloadFile url localPath
                (set_trace (trace first.2 ++
                   [EvLog ""; EvLog " ===> (!) First download attempt failed, retrying...";
                    EvLog ""; EvSleep 3000]) first.2) ∧
          creates_of evs = [localPath; localPath] ∧ sleeps_of evs = [3000]
      end) ∧
  (∀ (cacheAPIURL localPath : string) (w : World),
      let g := CacheDownload.getCacheDownloadURL cacheAPIURL w in
      let r := CacheDownload.downloadFileWithRetry cacheAPIURL localPath w in
      let evs := drop (length (trace w)) (trace r.2) in
      trace r.2 = trace w ++ evs ∧
      (length (creates_of evs) ≤ 2)%nat ∧
      match g.1.2 with
      | Some err => r = (Some err, g.2) ∧ creates_of evs = []
      | None =>
          r = CachePull.downloadFileWithRetry g.1.1 localPath (CacheDownload.resolved_world g.1.1 g.2)
      end).
Proof.
  split.
  - intros url localPath w first r evs. subst first r evs.
    pose proof (downloadFileWithRetry_cases url localPath w) as Hc. simpl in Hc.
    destruct ((CachePull.downloadFile url localPath w).1);
      destruct Hc as (Hr & evs & Ht & Hcr & Hsl);
      rewrite Ht, drop_app_length, Hcr, Hsl; simpl; split_and!; done || lia.
  - intros cacheAPIURL localPath w g r evs. subst g r evs.
    rewrite downloadFileWithRetry_resolved.
    destruct (getCacheDownloadURL_events cacheAPIURL w) as (_ & Hdbg & evs0 & Ht0 & Hc0 & _).
    destruct ((CacheDownload.getCacheDownloadURL cacheAPIURL w).1.2) as [err|].
    + simpl. rewrite Ht0, drop_app_length, Hc0. simpl. split_and!; done || lia.
    + pose proof (downloadFileWithRetry_cases
                    (CacheDownload.getCacheDownloadURL cacheAPIURL w).1.1 localPath
                    (CacheDownload.resolved_world (CacheDownload.getCacheDownloadURL cacheAPIURL w).1.1
                       (CacheDownload.getCacheDownloadURL cacheAPIURL w).2)) as Hc.
      simpl in Hc.
      assert (∃ logs, only_logs logs ∧
                trace (CacheDownload.resolved_world (CacheDownload.getCacheDownloadURL cacheAPIURL w).1.1
                         (CacheDownload.getCacheDownloadURL cacheAPIURL w).2) =
                trace w ++ evs0 ++ logs) as (logs & Hlogs & Ht1).
      { unfold CacheDownload.resolved_world, when, log_Printf, emit, ret.
        destruct (gIsDebugMode _); simpl.
        - eexists [_]. split; [repeat constructor; by eexists|].
          by rewrite Ht0, <- (assoc (++)).
        - exists []. split; [constructor|]. by rewrite Ht0, app_nil_r. }
      destruct (only_logs_observers _ Hlogs) as (Hlc & _).
      assert (∃ evs, trace (CachePull.downloadFileWithRetry
                (CacheDownload.getCacheDownloadURL cacheAPIURL w).1.1 localPath
                (CacheDownload.resolved_world (CacheDownload.getCacheDownloadURL cacheAPIURL w).1.1
                   (CacheDownload.getCacheDownloadURL cacheAPIURL w).2)).2 =
                trace w ++ evs ∧ (length (creates_of evs) ≤ 2)%nat)
        as (evs & Ht & Hlen).
      { destruct ((CachePull.downloadFile _ localPath (CacheDownload.resolved_world _ _)).1);
          destruct Hc as (_ & evs & Ht & Hcr & _); rewrite Ht, Ht1;
          exists (evs0 ++ logs ++ evs); rewrite <- !(assoc (++));
          (split; [done|]); rewrite !creates_of_app, Hc0, Hlc, Hcr; simpl; lia. }
      rewrite Ht, drop_app_length. done.
Qed.

(** C5, as the sources have it.  When the cache API answers the request
    of [getCacheDownloadURL] and the body of the answer is read, a status
    below 200 or above 202 is classified as "Build cache not found.
    Probably cache not initialised yet": that error is what
    [getCacheDownloadURL] returns.  [main] treats it as every other
    download error: it logs it with [log.Fatalf] and the process ends with
    status 1.  Nothing further is downloaded: the request to the API is the
    only one, [os.Create] is never called and the file system is as it
    was. *)
Theorem api_status_outside_range_is_fatal
    (w : World) (cacheAPIURL : string) (answer : string -> error + Response)
    (resp : Response) :
  environ w !! "cache_api_url" = Some cacheAPIURL ->
  cacheAPIURL ≠ "" ->
  http_NewRequest cacheAPIURL = None ->
  head (net w) = Some answer ->
  answer cacheAPIURL = inr resp ->
  term (Body resp) = io_EOF ->
  StatusCode resp < 200 ∨ StatusCode resp > 202 ->
  let r := CacheDownload.main w in
  let evs := drop (length (trace w)) (trace r.2) in
  (CacheDownload.getCacheDownloadURL cacheAPIURL w).1 = ("", Some CacheDownload.not_initialised) ∧
  r.1 = 1 ∧
  trace r.2 = trace w ++ evs ∧
  last evs = Some (EvLog (" [!] Unable to download cache: " +:+ Error CacheDownload.not_initialised)) ∧
  requests_of evs = [cacheAPIURL] ∧
  creates_of evs = [] ∧
  fs r.2 = fs w.
Proof.
  intros Henv Hurl Hreq Hnet Hans Hbody Hstatus r evs. subst r evs.
  assert (Hresp : ∀ w0, net w0 = net w ->
            (CacheDownload.getCacheDownloadURL cacheAPIURL w0).1 = ("", Some CacheDownload.not_initialised)).
  { intros w0 Hw0. rewrite (getCacheDownloadURL_response _ _ resp); try done.
    - by rewrite decide_True.
    - rewrite http_Get_spec. simpl. rewrite Hw0.
      destruct (net w); simpl in *; by simplify_eq. }
  split; [by apply Hresp|].
  assert (Hretry : ∀ w0, net w0 = net w ->
            CacheDownload.downloadFileWithRetry cacheAPIURL "/tmp/cache-archive.tar" w0 =
              (Some CacheDownload.not_initialised, (http_Get cacheAPIURL w0).2)).
  { intros w0 Hw0. rewrite downloadFileWithRetry_resolved.
    rewrite getCacheDownloadURL_world, Hreq. by rewrite (Hresp w0 Hw0). }
  unfold CacheDownload.main, CacheDownload.CreateStepParamsFromEnvs, bind, log_Println,
    emit, os_Getenv, ret, put_gIsDebugMode, get_gIsDebugMode.
  simpl. rewrite Henv. simpl. rewrite decide_False by done.
  destruct (bool_decide (default "" (environ w !! "is_debug_mode") = "true")); simpl;
    rewrite Hretry by done; rewrite http_Get_spec; simpl;
    destruct (net w) as [|a rest]; simplify_eq; simpl;
    rewrite <- !(assoc (++)), drop_app_length; done.
Qed.
End DownloadFacts.

Section DownloadExamples.
Import OS TestLibs.

Lemma api_status_outside_range_is_fatal_witness :
  let r := CacheDownload.main api_404_world in
  r.1 = 1 ∧ requests_of (trace r.2) = ["https://api/cache"] ∧ fs r.2 = fs api_404_world.
Proof.
  destruct (api_status_outside_range_is_fatal api_404_world "https://api/cache"
              (fun _ => inr (mkResponse 404 (mkStream [] io_EOF)))
              (mkResponse 404 (mkStream [] io_EOF)))
    as (_ & Hexit & _ & _ & Hreq & _ & Hfs);
    [reflexivity|discriminate|reflexivity|reflexivity|reflexivity|reflexivity
    |right; reflexivity|].
  split_and!; [exact Hexit|exact Hreq|exact Hfs].
Defined.

(** C5, the claim as stated fails: the API answers 404 and the run ends
    with status 1, not with success. *)
Lemma api_404_exits_with_failure :
  (CacheDownload.main api_404_world).1 = 1 ∧
  (CacheDownload.main api_404_world).1 ≠ 0 ∧
  last (trace (CacheDownload.main api_404_world).2) =
    Some (EvLog " [!] Unable to download cache: Build cache not found. Probably cache not initialised yet (first cache push initialises the cache), nothing to worry about ;)").
Proof. vm_compute. split_and!; [reflexivity|discriminate|reflexivity]. Qed.

End DownloadExamples.

(** ** The first main.go: placing the cache items *)

Section PlacementFacts.
Import Filepath OS CachePull.
Context `{GoLibs}.

Lemma os_MkdirAll_spec (path : string) (perm : Z) (w : World) :
  let w1 := set_trace (trace w ++ [EvMkdirAll path]) w in
  os_MkdirAll path perm w =
    match mkdir_chain (fs w) (ancestors path) with
    | inl err => (Some err, w1)
    | inr m => (None, set_fs m w1)
    end.
Proof. reflexivity. Qed.

(** [os.Rename] records itself, and changes the files only when it
    succeeds. *)
Lemma os_Rename_frame (oldpath newpath : string) (w : World) :
  let r := os_Rename oldpath newpath w in
  trace r.2 = trace w ++ [EvRename oldpath newpath] ∧
  gIsDebugMode r.2 = gIsDebugMode w ∧
  (is_Some r.1 -> fs r.2 = fs w).
Proof.
  simpl. unfold os_Rename, bind, emit. simpl.
  repeat case_match; simplify_eq; simpl; split_and!; try done; by intros [? ?].
Qed.

Ltac go_cbn := cbn -[item_base item_src os_Rename fmt_Sprintf mkdir_chain ancestors].

(** One turn of the loop: the directory of the destination is made; when
    that fails the failure is logged and the item is left where it is;
    otherwise the move is logged and tried, and its failure is logged. *)
Lemma uncompressCaches_item_cases (tmp : string) (it : CacheContentModel) (w w' : World) :
  CachePull.uncompressCaches_item tmp it w = (tt, w') ->
  gIsDebugMode w' = gIsDebugMode w ∧
  ∃ dbg rest,
    only_logs dbg ∧
    trace w' = trace w ++ dbg ++ EvMkdirAll (item_base it) :: rest ∧
    mkdirs_of rest = [] ∧
    (renames_of rest = [] ∨ renames_of rest = [(item_src tmp it, DestinationPath it)]) ∧
    match mkdir_chain (fs w) (ancestors (item_base it)) with
    | inl err =>
        rest = [EvLog (fmt_Sprintf
                  [" [!] Failed to create base path ("; item_base it; ") for cache item (";
                   item_src tmp it; "): "; Error err])] ∧
        fs w' = fs w
    | inr m =>
        ∃ w1, fs w1 = m ∧
          match (os_Rename (item_src tmp it) (DestinationPath it) w1).1 with
          | Some err =>
              rest = [EvLog (fmt_Sprintf [" [MOVE]: "; item_src tmp it; " => ";
                                          DestinationPath it]);
                      EvRename (item_src tmp it) (DestinationPath it);
                      EvLog (fmt_Sprintf
                        [" [!] Failed to move cache item ("; item_src tmp it;
                         ") to it's place: "; Error err])] ∧
              fs w' = m
          | None =>
              rest = [EvLog (fmt_Sprintf [" [MOVE]: "; item_src tmp it; " => ";
                                          DestinationPath it]);
                      EvRename (item_src tmp it) (DestinationPath it)] ∧
              fs w' = fs (os_Rename (item_src tmp it) (DestinationPath it) w1).2
          end
    end.
Proof.
  unfold CachePull.uncompressCaches_item, bind, get_gIsDebugMode.
  fold (item_base it). fold (item_src tmp it).
  set (d := when (gIsDebugMode w) _ w).
  assert (∃ dbg, only_logs dbg ∧ d = (tt, set_trace (trace w ++ dbg) w)) as (dbg & Hdbg & ->).
  { unfold d, when, log_Printf, emit, ret. destruct (gIsDebugMode w).
    - eexists [_]. split; [repeat constructor; by eexists|done].
    - exists []. split; [constructor|]. rewrite app_nil_r. by destruct w. }
  rewrite os_MkdirAll_spec. go_cbn.
  destruct (mkdir_chain (fs w) (ancestors (item_base it))) as [err|m].
  - unfold log_Printf, emit. go_cbn. intros ?; simplify_eq. go_cbn.
    split; [done|]. exists dbg. eexists. split; [done|].
    split; [by rewrite <- !(assoc (++))|]. split_and!; auto.
  - unfold log_Printf, emit, ret. go_cbn.
    match goal with |- context [os_Rename _ _ ?w1] =>
      pose proof (os_Rename_frame (item_src tmp it) (DestinationPath it) w1)
        as (Htr & Hd & Hfs);
      destruct (os_Rename (item_src tmp it) (DestinationPath it) w1) as [[err|] w2] eqn:Hren
    end; go_cbn; intros ?; simplify_eq; simpl in *.
    + split; [done|]. exists dbg. eexists. split; [done|].
      rewrite Htr, <- !(assoc (++)). simpl. split; [done|]. split; [done|].
      split; [by right|].
      eexists. split; [|rewrite Hren; simpl; split; [done|by apply Hfs]]. done.
    + split; [done|]. exists dbg. eexists. split; [done|].
      rewrite Htr, <- !(assoc (++)). simpl. split; [done|]. split; [done|].
      split; [by right|].
      eexists. split; [|rewrite Hren; simpl; done]. done.
Qed.

Lemma renames_of_app (a b : list Event) :
  renames_of (a ++ b) = renames_of a ++ renames_of b.
Proof. apply omap_app. Qed.

(** The loop goes through the whole list, whatever fails on the way. *)
Lemma uncompressCaches_loop (tmp : string) (l : list CacheContentModel) (w : World) :
  let r := for_range l (CachePull.uncompressCaches_item tmp) w in
  ∃ evs, trace r.2 = trace w ++ evs ∧
         mkdirs_of evs = item_base <$> l ∧
         renames_of evs `sublist_of`
           ((fun it => (item_src tmp it, DestinationPath it)) <$> l).
Proof.
  revert w. induction l as [|it l IH]; intros w; simpl.
  { exists []. by rewrite app_nil_r. }
  unfold bind.
  destruct (CachePull.uncompressCaches_item tmp it w) as [[] w1] eqn:Hitem.
  apply uncompressCaches_item_cases in Hitem
    as (_ & dbg & rest & Hdbg & Ht & Hmk & Hren & _).
  destruct (IH w1) as (evs & Ht' & Hmk' & Hren'). simpl in *.
  destruct (only_logs_observers _ Hdbg) as (_ & _ & _ & Hdm & Hdr).
  exists (dbg ++ EvMkdirAll (item_base it) :: rest ++ evs). split_and!.
  - rewrite Ht', Ht, <- !(assoc (++)). done.
  - rewrite mkdirs_of_app, Hdm. simpl.
    change (mkdirs_of (EvMkdirAll (item_base it) :: rest ++ evs))
      with (item_base it :: mkdirs_of (rest ++ evs)).
    by rewrite mkdirs_of_app, Hmk, Hmk'.
  - rewrite renames_of_app, Hdr. simpl.
    change (renames_of (EvMkdirAll (item_base it) :: rest ++ evs))
      with (renames_of (rest ++ evs)).
    rewrite renames_of_app.
    destruct Hren as [-> | ->]; simpl.
    + by apply sublist_cons.
    + by apply sublist_skip.
Qed.

(** C8, as the sources have it.  When the temporary directory is made
    and the tar command succeeds, [uncompressCaches] goes through every
    item of the manifest in manifest order: [os.MkdirAll] is called for the
    directory of each destination, in order, whatever failed before; the
    moves that are tried are moves of manifest items, in manifest order;
    and the result is the path of the temporary directory with a nil
    error.  For one item: when the directory cannot be made, this is logged,
    no move is tried and the files stay as they are; when the move fails,
    this is logged and the files stay as [os.MkdirAll] left them. *)
Theorem placement_skips_failing_items
    (cacheFilePath : string) (cacheInfo : CacheInfosModel) (w : World) (tmp : string) :
  (NormalizedOSTempDirPath "" w).1 = inr tmp ->
  (exec w tmp ["tar"; "-xvzf"; cacheFilePath] (fs (NormalizedOSTempDirPath "" w).2)).1.2
    = None ->
  (let r := CachePull.uncompressCaches cacheFilePath cacheInfo w in
   let evs := drop (length (trace w)) (trace r.2) in
   r.1 = (tmp, None) ∧
   trace r.2 = trace w ++ evs ∧
   mkdirs_of evs = (fun it => Dir (DestinationPath it)) <$> Contents cacheInfo ∧
   renames_of evs `sublist_of`
     ((fun it => (Join [tmp; RelativePathInArchive it], DestinationPath it))
        <$> Contents cacheInfo)) ∧
  (∀ (it : CacheContentModel) (w0 : World),
      let r0 := CachePull.uncompressCaches_item tmp it w0 in
      let evs0 := drop (length (trace w0)) (trace r0.2) in
      let src := Join [tmp; RelativePathInArchive it] in
      let base := Dir (DestinationPath it) in
      match mkdir_chain (fs w0) (ancestors base) with
      | inl err =>
          last evs0 = Some (EvLog (fmt_Sprintf
            [" [!] Failed to create base path ("; base; ") for cache item (";
             src; "): "; Error err])) ∧
          renames_of evs0 = [] ∧
          fs r0.2 = fs w0
      | inr m =>
          renames_of evs0 = [(src, DestinationPath it)] ∧
          ∃ w1, fs w1 = m ∧
            match (os_Rename src (DestinationPath it) w1).1 with
            | Some err =>
                last evs0 = Some (EvLog (fmt_Sprintf
                  [" [!] Failed to move cache item ("; src; ") to it's place: ";
                   Error err])) ∧
                fs r0.2 = m
            | None => fs r0.2 = fs (os_Rename src (DestinationPath it) w1).2
            end
      end).
Proof.
  intros Htmp Htar. split.
  - simpl.
    destruct (CachePull.uncompressCaches cacheFilePath cacheInfo w) as [res w'] eqn:Hrun.
    unfold CachePull.uncompressCaches, bind, get_gIsDebugMode, run_command, bind, emit
      in Hrun.
    destruct (NormalizedOSTempDirPath "" w) as [[err|tmp'] w1] eqn:Hn;
      simpl in *; simplify_eq.
    assert (Ht1 : trace w1 = trace w ++ [EvTempDir ""] ∧ exec w1 = exec w).
    { unfold NormalizedOSTempDirPath, bind, emit in Hn. simpl in Hn.
      destruct (tmp_names w); by simplify_eq. }
    destruct Ht1 as [Ht1 Hex].
    unfold when, log_Printf, emit, ret in Hrun.
    destruct (gIsDebugMode w1); simpl in Hrun; rewrite Hex in Hrun;
      (destruct (exec w tmp ["tar"; "-xvzf"; cacheFilePath] (fs w1)) as [[out [e|]] m];
       simpl in *; [done|]);
      match type of Hrun with context [for_range _ _ ?w2] =>
        destruct (uncompressCaches_loop tmp (Contents cacheInfo) w2)
          as (evs & Ht & Hmk & Hren);
        destruct (for_range (Contents cacheInfo) (CachePull.uncompressCaches_item tmp) w2)
          as [[] w3]
      end;
      simpl in *; simplify_eq;
      rewrite Ht, Ht1, <- !(assoc (++)), drop_app_length;
      split_and!; done.
  - intros it w0. cbv zeta.
    fold (item_base it) (item_src tmp it).
    destruct (CachePull.uncompressCaches_item tmp it w0) as [[] w'] eqn:Hitem.
    apply uncompressCaches_item_cases in Hitem
      as (_ & dbg & rest & Hdbg & Ht & Hmk & _ & Hcases).
    destruct (only_logs_observers _ Hdbg) as (_ & _ & _ & _ & Hdr).
    cbn [fst snd]. rewrite Ht, drop_app_length.
    assert (Hren : renames_of (dbg ++ EvMkdirAll (item_base it) :: rest) = renames_of rest).
    { rewrite renames_of_app, Hdr. done. }
    rewrite Hren.
    destruct (mkdir_chain (fs w0) (ancestors (item_base it))) as [err|m].
    + destruct Hcases as [-> ->]. split_and!; [|done..].
      by rewrite last_app.
    + destruct Hcases as (w1 & Hw1 & Hcases).
      destruct ((os_Rename (item_src tmp it) (DestinationPath it) w1).1) eqn:Hr.
      * destruct Hcases as [-> ->]. split; [done|]. exists w1. split; [done|].
        rewrite Hr. split; [|done].
        by rewrite last_app.
      * destruct Hcases as [-> ->]. split; [done|]. exists w1. split; [done|].
        by rewrite Hr.
Qed.

End PlacementFacts.

Section PlacementExamples.
Import OS TestLibs.

Lemma placement_skips_failing_items_witness :
  let r := CachePull.uncompressCaches "/tmp/cache.tar.gz" one_item item_missing_world in
  r.1 = ("/tmp/cache", None) ∧
  mkdirs_of (trace r.2) = ["/home/ci"] ∧
  skipped_of (trace r.2) = 1%nat.
Proof.
  destruct (placement_skips_failing_items "/tmp/cache.tar.gz" one_item
              item_missing_world "/tmp/cache") as [(Hres & _ & Hmk & _) _];
    [reflexivity|reflexivity|].
  split_and!; [exact Hres|exact Hmk|vm_compute; reflexivity].
Defined.

(** C8, the claim as stated fails: no count of skipped items is
    returned.  The same manifest is placed in two worlds; in one the item
    is skipped, in the other it is moved, and [uncompressCaches] returns
    the same value in both: the temporary directory and nil. *)
Lemma placement_returns_no_count :
  let ra := CachePull.uncompressCaches "/tmp/cache.tar.gz" one_item item_missing_world in
  let rb := CachePull.uncompressCaches "/tmp/cache.tar.gz" one_item item_present_world in
  ra.1 = ("/tmp/cache", None) ∧ rb.1 = ("/tmp/cache", None) ∧
  skipped_of (trace ra.2) = 1%nat ∧ skipped_of (trace rb.2) = 0%nat ∧
  ¬ ∃ count : string * option error -> nat,
      ∀ w, count (CachePull.uncompressCaches "/tmp/cache.tar.gz" one_item w).1 =
           skipped_of (drop (length (trace w))
             (trace (CachePull.uncompressCaches "/tmp/cache.tar.gz" one_item w).2)).
Proof.
  assert (Ha : (CachePull.uncompressCaches "/tmp/cache.tar.gz" one_item item_missing_world).1
               = ("/tmp/cache", None)) by (vm_compute; reflexivity).
  assert (Hb : (CachePull.uncompressCaches "/tmp/cache.tar.gz" one_item item_present_world).1
               = ("/tmp/cache", None)) by (vm_compute; reflexivity).
  assert (Hsa : skipped_of (trace (CachePull.uncompressCaches "/tmp/cache.tar.gz" one_item
                                     item_missing_world).2) = 1%nat)
    by (vm_compute; reflexivity).
  assert (Hsb : skipped_of (trace (CachePull.uncompressCaches "/tmp/cache.tar.gz" one_item
                                     item_present_world).2) = 0%nat)
    by (vm_compute; reflexivity).
  simpl. split_and!; [done..|].
  intros [count Hcount].
  pose proof (Hcount item_missing_world) as Hca.
  pose proof (Hcount item_present_world) as Hcb.
  rewrite Ha in Hca. rewrite Hb in Hcb.
  change (drop (length (trace item_missing_world)) ?t) with t in Hca.
  change (drop (length (trace item_present_world)) ?t) with t in Hcb.
  rewrite Hsa in Hca. rewrite Hsb in Hcb. congruence.
Qed.

End PlacementExamples.

(** ** The second main.go: manual extraction *)

Section ExtractionFacts.
Import Filepath OS TestLibs.

(** What [untarFile] does with an entry of hard-link kind: the parent
    directories of the entry path first, then, when they are there,
    [os.Link] at the entry path, with the link name joined to the entry
    path itself as target. *)
Lemma untarFile_hard_link (tr : Stream) (header : Header) (w : World) :
  Typeflag header = TypeLink ->
  let r := CacheDownload.untarFile tr header w in
  let target := Join [Name header; Linkname header] in
  r = CacheDownload.writeNewHardLink (Name header) target w ∧
  trace r.2 = trace w ++
    EvMkdirAll (Dir (Name header)) ::
    match mkdir_chain (fs w) (ancestors (Dir (Name header))) with
    | inl _ => []
    | inr _ => [EvLink target (Name header)]
    end.
Proof.
  intros Hflag. cbv zeta.
  assert (CacheDownload.untarFile tr header =
            CacheDownload.writeNewHardLink (Name header)
              (Join [Name header; Linkname header])) as ->.
  { unfold CacheDownload.untarFile. rewrite Hflag.
    repeat case_decide; try done; try discriminate.
    exfalso. intuition discriminate. }
  split; [done|].
  unfold CacheDownload.writeNewHardLink, bind, os_MkdirAll, bind, emit.
  cbn -[Join Dir mkdir_chain ancestors os_Link].
  destruct (mkdir_chain (fs w) (ancestors (Dir (Name header)))) as [err|m];
    cbn -[Join Dir mkdir_chain ancestors]; [done|].
  unfold os_Link, bind, emit. cbn -[Join Dir mkdir_chain ancestors].
  repeat case_match; simplify_eq; cbn -[Join Dir]; by rewrite <- (assoc (++)).
Qed.

Lemma untarFile_hard_link_witness :
  (CacheDownload.untarFile (mkStream [] io_EOF) hard_link_header hard_link_world).1 =
  (CacheDownload.writeNewHardLink "a/b" (Join ["a/b"; "c"]) hard_link_world).1.
Proof.
  by destruct (untarFile_hard_link (mkStream [] io_EOF) hard_link_header hard_link_world
                 eq_refl) as [-> _].
Defined.

(** C7, the code at the failing input.  The entry "a/b" is a hard link
    with the recorded link name "c", and "a/c" exists.  [untarFile] makes
    the parent directory "a" and then calls [os.Link] with the target
    "a/b/c", the link name joined to the entry path, which fails; the link
    name resolved against the directory of the entry is "a/c", and with
    that target the hard link is made. *)
Lemma untarFile_hard_link_target :
  let r := CacheDownload.untarFile (mkStream [] io_EOF) hard_link_header hard_link_world in
  trace r.2 = [EvMkdirAll "a"; EvLink "a/b/c" "a/b"] ∧
  r.1 = Some (errors_New
    "a/b: making hard link for: link a/b/c a/b: no such file or directory") ∧
  fs r.2 !! "a/b" = None ∧
  Join [Dir "a/b"; "c"] = "a/c" ∧
  let r' := CacheDownload.writeNewHardLink "a/b" "a/c" hard_link_world in
  trace r'.2 = [EvMkdirAll "a"; EvLink "a/c" "a/b"] ∧
  r'.1 = None ∧
  fs r'.2 !! "a/b" = Some (File ["x"%byte] 420).
Proof. vm_compute. split_and!; reflexivity. Qed.

End ExtractionFacts.

(** ** StackCompatibilityGate *)

Section GateFacts.
Import Gate.

(** C4, as the contract of §4.6 has it: for all stack identities [A] and
    [B] that are set (not empty) and differ, the check proceeds on equal
    identities, aborts on [A] against [B] without fallback, proceeds on
    them with fallback, and proceeds when the stack identity of the
    manifest is unset. *)
Theorem gate_decision_table (A B : string) :
  A ≠ B -> A ≠ "" -> B ≠ "" ->
  check A A false = Proceed ∧
  check A B false = Abort A B ∧
  check A B true = Proceed ∧
  check "" B false = Proceed.
Proof.
  intros Hne HA HB. unfold check.
  rewrite (decide_True (P := A = A)) by done.
  rewrite !(decide_False (P := A = B)) by done.
  rewrite !(decide_False (P := A = "")) by done.
  rewrite !(decide_False (P := B = "")) by done.
  split_and!; [done..|]. repeat case_decide; done.
Qed.

Lemma gate_decision_table_witness :
  "X" ≠ "Y" ∧ "X" ≠ "" ∧ "Y" ≠ "" ∧
  check "X" "X" false = Proceed ∧
  check "X" "Y" false = Abort "X" "Y" ∧
  check "X" "Y" true = Proceed ∧
  check "" "Y" false = Proceed.
Proof.
  assert (H1 : "X" ≠ "Y") by discriminate.
  assert (H2 : "X" ≠ "") by discriminate.
  assert (H3 : "Y" ≠ "") by discriminate.
  split; [exact H1|]. split; [exact H2|]. split; [exact H3|].
  exact (gate_decision_table "X" "Y" H1 H2 H3).
Defined.

(** C4, the claim as stated fails: it asks for abort on every pair of
    different identities without fallback, the unset one included, and for
    proceed when the identity of the manifest is unset.  With the manifest
    identity unset and the current one "Y" the check proceeds, so the table
    does not hold for all different [A] and [B]; an unset current identity
    does not block either. *)
Lemma gate_unset_identity_never_aborts :
  "" ≠ "Y" ∧
  check "" "Y" false = Proceed ∧
  check "X" "" false = Proceed ∧
  ¬ (∀ A B : string, A ≠ B ->
       check A A false = Proceed ∧
       (∃ m c, check A B false = Abort m c) ∧
       check A B true = Proceed ∧
       check "" B false = Proceed).
Proof.
  split_and!; [discriminate|reflexivity|reflexivity|].
  intros Hall. destruct (Hall "" "Y") as (_ & (m & c & Habort) & _); [discriminate|].
  vm_compute in Habort. discriminate.
Qed.

End GateFacts.

(** ** archive.go: the sniffer is transparent *)

Section SnifferFacts.
Context `{GoLibs}.

Lemma delivers_similar {R} `{Reader R} (r : R) (s : Stream) : delivers r s -> similar r s.
Proof. intros Hd. exact Hd. Qed.

Lemma similar_Read {R1} `{Reader R1} {R2} `{Reader R2} (r1 : R1) (r2 : R2) (n : nat) :
  similar r1 r2 ->
  (Read n r1).1 = (Read n r2).1 ∧ similar (Read n r1).2 (Read n r2).2.
Proof.
  intros (φ & Hsim & Hφ). destruct (Hsim r1 r2 n Hφ) as [Heq Hnext].
  split; [done|]. by exists φ.
Qed.

Lemma similar_run {R1} `{Reader R1} {R2} `{Reader R2} {A}
    (p : ReadProg A) (r1 : R1) (r2 : R2) :
  similar r1 r2 ->
  (run p r1).1 = (run p r2).1 ∧ similar (run p r1).2 (run p r2).2.
Proof.
  revert r1 r2. induction p as [a|n k IH]; intros r1 r2 Hs; simpl; [done|].
  destruct (similar_Read r1 r2 n Hs) as [Heq Hnext].
  destruct (Read n r1) as [res r1'], (Read n r2) as [res' r2']. simpl in *. subst res'.
  by apply IH.
Qed.

Lemma Read_gzip_Reader {R} `{Reader R} (z : gzip_Reader R) (n : nat) :
  Read n z =
    ((run (gzip_Read n (gz_dec z)) (gz_r z)).1.1,
     mk_gzip_Reader (run (gzip_Read n (gz_dec z)) (gz_r z)).1.2
                    (run (gzip_Read n (gz_dec z)) (gz_r z)).2).
Proof.
  unfold Read at 1, gzip_Reader_Reader.
  by destruct (run (gzip_Read n (gz_dec z)) (gz_r z)) as [[res d] r'].
Qed.

(** Two gzip readers in the same decoder state over sources that cannot be
    told apart cannot be told apart. *)
Lemma gzip_Reader_similar {R1} `{Reader R1} {R2} `{Reader R2}
    (z1 : gzip_Reader R1) (z2 : gzip_Reader R2) :
  gz_dec z1 = gz_dec z2 -> similar (gz_r z1) (gz_r z2) -> similar z1 z2.
Proof.
  intros Hdec Hsim.
  exists (fun z1 z2 => gz_dec z1 = gz_dec z2 ∧ similar (gz_r z1) (gz_r z2)).
  split; [|done]. clear. intros z1 z2 n [Hdec Hsim].
  rewrite !Read_gzip_Reader. simpl. rewrite Hdec.
  destruct (similar_run (gzip_Read n (gz_dec z2)) _ _ Hsim) as [Heq Hnext].
  by rewrite Heq.
Qed.

Lemma AsGzip_similar {R} `{Reader R} {R2} `{Reader R2}
    (z : gzip_Reader (RestoreReader R)) (r2 : R2) :
  similar z r2 -> similar (AsGzip z) r2.
Proof.
  intros Hs. exists (fun a r2 => ∃ z, a = AsGzip z ∧ similar z r2).
  split; [|by exists z]. clear. intros a r2 n (z & -> & Hs).
  destruct (similar_Read _ _ n Hs) as [Heq Hnext].
  rewrite Read_AsGzip. simpl. split; [done|]. by eexists.
Qed.

Lemma Next_similar {R1} `{Reader R1} {R2} `{Reader R2} (r1 : R1) (r2 : R2) :
  similar r1 r2 -> (Next (tar_NewReader r1)).1 = (Next (tar_NewReader r2)).1.
Proof.
  intros Hs. unfold Next, tar_NewReader. simpl.
  destruct (similar_run (tar_Next tar_init) r1 r2 Hs) as [Heq _].
  destruct (run (tar_Next tar_init) r1) as [[res st] r1'].
  destruct (run (tar_Next tar_init) r2) as [[res' st'] r2'].
  simpl in *. by simplify_eq.
Qed.

(** Opening gzip over a fresh restorable reader gives what opening it over
    the stream gives. *)
Lemma gzip_open_New (s : Stream) :
  match (gzip_open (NewRestoreReader s)).1, (gzip_open s).1 with
  | inl e1, inl e2 => e1 = e2
  | inr z1, inr z2 => similar z1 z2
  | _, _ => False
  end.
Proof.
  rewrite !gzip_open_fst.
  destruct (delivers_run gzip_NewReader _ _
              (recording_delivers (NewRestoreReader s) s eq_refl (delivers_Stream s)))
    as [Heq Hnext].
  destruct (run gzip_NewReader (NewRestoreReader s)) as [[e|d] rr],
           (run gzip_NewReader s) as [[e'|d'] s']; simpl in *; simplify_eq; [done|].
  by apply gzip_Reader_similar.
Qed.

Lemma readFirstEntry_next_outcome (a : archive_Reader Stream) :
  ((readFirstEntry_next a).1.2, (readFirstEntry_next a).2) =
    header_and_error (Next (tar_NewReader a)).1.
Proof.
  pose proof (readFirstEntry_next_cases a) as Hc.
  destruct ((Next (tar_NewReader a)).1) as [[|msg]|hdr]; by rewrite Hc.
Qed.

(** X1. The sniffer is transparent: for every stream, [readFirstEntry]
    returns, and the header and the error it returns are those of the first
    [Next] of a tar reader over [gzip.NewReader] of the stream when that
    opens, and of a tar reader over the stream itself when it does not.
    The restorable reader in between changes nothing. *)
Theorem readFirstEntry_transparent (s : Stream) :
  ∃ fe, (readFirstEntry s).2 = Some fe ∧
    (fe.1.2, fe.2) =
      header_and_error
        match (gzip_open s).1 with
        | inr z => (Next (tar_NewReader z)).1
        | inl _ => (Next (tar_NewReader s)).1
        end.
Proof.
  pose proof (readFirstEntry_archive_cases s) as Hp. simpl in Hp.
  pose proof (gzip_open_New s) as Hopen.
  rewrite readFirstEntry_snd.
  destruct ((gzip_open (NewRestoreReader s)).1) as [e1|z1],
           ((gzip_open s).1) as [e2|z2]; try done.
  - destruct Hp as (rr' & _ & -> & _ & Hd). simpl. eexists. split; [done|].
    rewrite readFirstEntry_next_outcome. f_equal.
    apply Next_similar. by apply AsRestore_delivers.
  - destruct Hp as (-> & _). simpl. eexists. split; [done|].
    rewrite readFirstEntry_next_outcome. f_equal.
    apply Next_similar. by apply AsGzip_similar.
Qed.

(** X2. The three outcomes of [readFirstEntry]: nothing at all (an archive
    without entries), an error that is not [io.EOF] with no reader and no
    header, or a reader together with a header and no error.  [io.EOF] is
    never returned, and a header never comes with an error or without the
    reader. *)
Theorem readFirstEntry_outcomes (s : Stream) :
  ∃ fe, (readFirstEntry s).2 = Some fe ∧
    (fe = (None, None, None) ∨
     (∃ err, err ≠ io_EOF ∧ fe = (None, None, Some err)) ∨
     (∃ tr hdr, fe = (Some tr, Some hdr, None))).
Proof.
  pose proof (readFirstEntry_archive_cases s) as Hp. simpl in Hp.
  rewrite readFirstEntry_snd.
  assert (∃ archive, (readFirstEntry_archive s).2 = Some archive) as [archive ->].
  { destruct ((gzip_open (NewRestoreReader s)).1) as [err|z].
    - destruct Hp as (rr' & _ & -> & _). by eexists.
    - destruct Hp as (-> & _). by eexists. }
  simpl. eexists. split; [done|].
  pose proof (readFirstEntry_next_cases archive) as Hc.
  destruct ((Next (tar_NewReader archive)).1) as [[|msg]|hdr]; rewrite Hc.
  - by left.
  - right; left. eexists. split; [|done]. discriminate.
  - right; right. by eexists _, _.
Qed.

End SnifferFacts.

(** ** The first main.go: looking up the cache infos *)

Section LookupFacts.
Import OS.
Context `{GoLibs}.


Lemma readCacheInfoFromArchive_loop_scan {R} `{Reader R}
    (fuel n : nat) (tr tr' : tar_Reader R) :
  skips tr n tr' ->
  (n < fuel)%nat ->
  match (Next tr').1 with
  | inr header => Name header = "./cache-info.json"
  | inl _ => True
  end ->
  CachePull.readCacheInfoFromArchive_loop fuel tr =
    Some (scan_result (Next tr').1 (Next tr').2).
Proof.
  intros Hskips. revert fuel.
  induction Hskips as [tr|tr tr1 tr2 header n Hnext Hname Hskips IH];
    intros fuel Hfuel Hlast.
  - destruct fuel as [|fuel]; [lia|]. simpl.
    destruct (Next tr) as [[[|msg]|header] tr']; simpl in *; [done..|].
    rewrite decide_True by done.
    by destruct ((run json_Decode_CacheInfos tr').1).
  - destruct fuel as [|fuel]; [lia|]. simpl. rewrite Hnext.
    rewrite decide_False by done. apply IH; [lia|done].
Qed.


(** X4. The lookup stops at the first entry named "./cache-info.json".
    When the archive file opens as gzip and its first [n] entries have
    other names, the result is decided by the next step of the tar reader
    alone: the end of the archive gives "Did not find the required Cache
    Info file", a tar error gives "Failed to read Archive", and the entry
    of the cache infos gives what the JSON decoder makes of its payload;
    nothing after that entry is read.  Any bound above [n] will do. *)
Theorem readCacheInfoFromArchive_first_match
    (fuel n : nat) (archiveFilePth : string) (content : list byte) (mode : Z) (w : World)
    (gzf : gzip_Reader Stream) (tr' : tar_Reader (gzip_Reader Stream)) :
  fs w !! archiveFilePth = Some (File content mode) ->
  (gzip_open (mkStream content io_EOF)).1 = inr gzf ->
  skips (tar_NewReader gzf) n tr' ->
  (n < fuel)%nat ->
  match (Next tr').1 with
  | inr header => Name header = "./cache-info.json"
  | inl _ => True
  end ->
  (CachePull.readCacheInfoFromArchive fuel archiveFilePth w).1 =
    Some (scan_result (Next tr').1 (Next tr').2).
Proof.
  intros Hfile Hgz Hskips Hfuel Hlast.
  unfold CachePull.readCacheInfoFromArchive, bind, os_Open, ret, Close.
  rewrite Hfile. simpl. rewrite Hgz. simpl.
  by apply readCacheInfoFromArchive_loop_scan with (n := n).
Qed.

End LookupFacts.

Section LookupExamples.
Import OS TestLibs Samples.

Lemma readCacheInfoFromArchive_first_match_witness :
  (CachePull.readCacheInfoFromArchive 2 "/tmp/cache.tar.gz" two_entries_world).1 =
    Some (mkCacheInfosModel "fingerprint" [], None).
Proof.
  pose (gzf := mk_gzip_Reader (tt : GzDec) (mkStream (drop 10 two_entries) io_EOF)).
  pose (tr' := mk_tar_Reader (tt : TarSt)
                 (mk_gzip_Reader (tt : GzDec) (mkStream raw_archive io_EOF))).
  assert (H1 : fs two_entries_world !! "/tmp/cache.tar.gz" = Some (File two_entries 420))
    by (vm_compute; reflexivity).
  assert (H2 : (gzip_open (mkStream two_entries io_EOF)).1 = inr gzf)
    by (vm_compute; reflexivity).
  assert (H3 : skips (tar_NewReader gzf) 1 tr').
  { eapply skips_S; [vm_compute; reflexivity|vm_compute; discriminate|apply skips_O]. }
  assert (H4 : (1 < 2)%nat) by lia.
  assert (H5 : match (Next tr').1 with
               | inr header => Name header = "./cache-info.json"
               | inl _ => True
               end) by (vm_compute; reflexivity).
  rewrite (readCacheInfoFromArchive_first_match 2 1 "/tmp/cache.tar.gz" two_entries 420
             two_entries_world gzf tr' H1 H2 H3 H4 H5).
  vm_compute. reflexivity.
Defined.

End LookupExamples.

(** ** The two main.go: more on downloading *)

Section RetryFacts.
Import OS Observers.
Context `{GoLibs}.

Lemma execs_of_app (a b : list Event) : execs_of (a ++ b) = execs_of a ++ execs_of b.
Proof. apply omap_app. Qed.

Lemma download_event_logs (logs : list Event) : only_logs logs -> Forall download_event logs.
Proof. induction 1 as [|e logs [msg ->] _ IH]; constructor; done. Qed.

Lemma download_event_execs (evs : list Event) : Forall download_event evs -> execs_of evs = [].
Proof.
  induction 1 as [|e evs He _ IH]; [done|].
  destruct e; try done; exact IH.
Qed.

Lemma download_event_moves (evs : list Event) :
  Forall download_event evs -> mkdirs_of evs = [] ∧ renames_of evs = [].
Proof.
  induction 1 as [|e evs He _ IH]; [done|].
  destruct e; try done; exact IH.
Qed.

(** One attempt: what it leaves in the record, and which answer of the
    network it used up. *)
Lemma downloadFile_trace (url localPath : string) (w : World) :
  let r := CachePull.downloadFile url localPath w in
  ∃ evs, trace r.2 = trace w ++ evs ∧
         Forall download_event evs ∧
         (requests_of evs = [] ∧ net r.2 = net w ∨
          requests_of evs = [url] ∧ net r.2 = tail (net w)).
Proof.
  cbv zeta. destruct (CachePull.downloadFile url localPath w) as [res w'] eqn:Hrun.
  apply downloadFile_cases in Hrun. simpl.
  destruct ((os_Create localPath w).1).
  - destruct Hrun as (_ & -> & _ & -> & _). eexists. split; [done|].
    split; [by repeat constructor|by left].
  - destruct Hrun as (mode & logs & Hlogs & -> & -> & _).
    destruct (only_logs_observers _ Hlogs) as (_ & Hr & _).
    eexists. split; [done|]. split.
    + repeat constructor. by apply download_event_logs.
    + right. split; [|done].
      change (requests_of ([EvCreate localPath; EvHttpGet url] ++ logs))
        with (url :: requests_of logs).
      by rewrite Hr.
Qed.

(** A successful attempt leaves the whole body of the answer it got. *)
Lemma downloadFile_complete (url localPath : string) (w w' : World) :
  CachePull.downloadFile url localPath w = (None, w') ->
  ∃ answer resp mode,
    head (net w) = Some answer ∧ answer url = inr resp ∧
    StatusCode resp = 200 ∧ term (Body resp) = io_EOF ∧
    fs w' !! localPath = Some (File (data (Body resp)) mode).
Proof.
  intros Hrun. apply downloadFile_cases in Hrun.
  destruct (os_Create_cases localPath w) as (_ & Hnet & _).
  destruct ((os_Create localPath w).1); [by destruct Hrun|].
  destruct Hrun as (mode & logs & _ & _ & _ & _ & Hres).
  rewrite http_Get_spec in Hres. simpl in Hres. rewrite Hnet in Hres.
  destruct (net w) as [|answer rest]; simpl in *; [by destruct Hres|].
  destruct (answer url) as [err|resp] eqn:Hans; simpl in *; [by destruct Hres|].
  destruct (decide (StatusCode resp = 200)); [|by destruct Hres].
  destruct Hres as [Hfs Hnone]. case_decide; [|done].
  exists answer, resp, mode. rewrite Hfs, lookup_insert_eq. done.
Qed.

(** X5. When the retrying download of the first [main.go] returns nil, the
    local file holds the complete body of a 200 answer, and that answer is
    one of the first two the network gave for the URL: what a failed first
    attempt had written is gone. *)
Theorem retry_success_is_complete (url localPath : string) (w : World) :
  (CachePull.downloadFileWithRetry url localPath w).1 = None ->
  ∃ answer resp mode,
    answer ∈ take 2 (net w) ∧ answer url = inr resp ∧
    StatusCode resp = 200 ∧ term (Body resp) = io_EOF ∧
    fs (CachePull.downloadFileWithRetry url localPath w).2 !! localPath =
      Some (File (data (Body resp)) mode).
Proof.
  pose proof (downloadFileWithRetry_cases url localPath w) as Hc. simpl in Hc.
  destruct (downloadFile_trace url localPath w) as (evs1 & _ & _ & Hnet1).
  destruct (CachePull.downloadFile url localPath w) as [[e|] w1] eqn:Hfirst; simpl in *.
  - destruct Hc as [-> _].
    match goal with |- context [CachePull.downloadFile url localPath ?w2] =>
      destruct (CachePull.downloadFile url localPath w2) as [res w3] eqn:Hsecond
    end.
    simpl. intros ->. apply downloadFile_complete in Hsecond
      as (answer & resp & mode & Hhead & Hans & H200 & Hbody & Hfs).
    simpl in Hhead. exists answer, resp, mode. split_and!; try done.
    destruct Hnet1 as [[_ Hn]|[_ Hn]]; rewrite Hn in Hhead;
      destruct (net w) as [|a [|b rest]]; simpl in *; simplify_eq;
      first [by constructor|by do 2 constructor].
  - destruct Hc as [-> _]. intros _. simpl.
    apply downloadFile_complete in Hfirst
      as (answer & resp & mode & Hhead & Hans & H200 & Hbody & Hfs).
    exists answer, resp, mode. split_and!; try done.
    destruct (net w) as [|a rest]; simpl in *; simplify_eq;
      first [by constructor|by do 2 constructor].
Qed.

(** The record and the network after the retrying download of the first
    [main.go]. *)
Lemma downloadFileWithRetry_trace (url localPath : string) (w : World) :
  let r := CachePull.downloadFileWithRetry url localPath w in
  ∃ evs, trace r.2 = trace w ++ evs ∧
         Forall download_event evs ∧
         (length (requests_of evs) ≤ 2)%nat ∧
         Forall (eq url) (requests_of evs).
Proof.
  cbv zeta. pose proof (downloadFileWithRetry_cases url localPath w) as Hc. simpl in Hc.
  destruct (downloadFile_trace url localPath w) as (evs1 & Ht1 & Hd1 & Hr1).
  destruct (CachePull.downloadFile url localPath w) as [[e|] w1] eqn:Hfirst; simpl in *.
  - destruct Hc as [-> _].
    match goal with |- context [CachePull.downloadFile url localPath ?w2] =>
      destruct (downloadFile_trace url localPath w2) as (evs2 & Ht2 & Hd2 & Hr2)
    end.
    simpl in Ht2. rewrite Ht2, Ht1.
    exists (evs1 ++ [EvLog ""; EvLog " ===> (!) First download attempt failed, retrying...";
                     EvLog ""; EvSleep 3000] ++ evs2).
    split; [by rewrite <- !(assoc (++))|]. split.
    { apply Forall_app. split; [done|]. by repeat constructor. }
    rewrite !requests_of_app.
    change (requests_of [EvLog ""; _; EvLog ""; EvSleep 3000]) with (@nil string).
    destruct Hr1 as [[-> _]|[-> _]], Hr2 as [[-> _]|[-> _]]; simpl;
      (split; [lia|repeat constructor]).
  - destruct Hc as [-> _]. simpl. exists evs1. split_and!; [done..| |].
    + destruct Hr1 as [[-> _]|[-> _]]; simpl; lia.
    + destruct Hr1 as [[-> _]|[-> _]]; repeat constructor.
Qed.

(** What resolving the download URL leaves in the record: nothing when the
    request cannot even be made, the one request otherwise; and without a
    request there is no URL. *)
Lemma getCacheDownloadURL_record (cacheAPIURL : string) (w : World) :
  let g := CacheDownload.getCacheDownloadURL cacheAPIURL w in
  fs g.2 = fs w ∧
  match http_NewRequest cacheAPIURL with
  | Some err =>
      g = (("", Some (fmt_Errorf ["Failed to create request: "; Error err])), w)
  | None =>
      trace g.2 = trace w ++ [EvHttpGet cacheAPIURL] ∧ net g.2 = tail (net w)
  end.
Proof.
  cbv zeta. rewrite getCacheDownloadURL_world.
  unfold CacheDownload.getCacheDownloadURL.
  destruct (http_NewRequest cacheAPIURL); [done|].
  rewrite http_Get_spec. simpl. destruct (net w) eqn:Hn; simpl; by rewrite ?Hn.
Qed.

(** X6. What the retrying downloads ask of the network.  In the first
    [main.go]: two requests at most, all of them for the URL given.  In the
    second: either no request at all, or one request to the cache API,
    followed by two requests at most, all of them for the one download URL
    the API returned; the URL is resolved once and the retry uses it again.
    Neither starts a command, makes a directory or moves a file. *)
Theorem retry_requests :
  (∀ (url localPath : string) (w : World),
      let r := CachePull.downloadFileWithRetry url localPath w in
      let evs := since w (trace r.2) in
      (length (requests_of evs) ≤ 2)%nat ∧
      Forall (eq url) (requests_of evs) ∧
      execs_of evs = [] ∧ mkdirs_of evs = [] ∧ renames_of evs = []) ∧
  (∀ (cacheAPIURL localPath : string) (w : World),
      let g := CacheDownload.getCacheDownloadURL cacheAPIURL w in
      let r := CacheDownload.downloadFileWithRetry cacheAPIURL localPath w in
      let evs := since w (trace r.2) in
      (requests_of evs = [] ∨
       ∃ rest, requests_of evs = cacheAPIURL :: rest ∧
               (length rest ≤ 2)%nat ∧ Forall (eq g.1.1) rest) ∧
      execs_of evs = [] ∧ mkdirs_of evs = [] ∧ renames_of evs = []).
Proof.
  split.
  - intros url localPath w. cbv zeta. unfold since.
    destruct (downloadFileWithRetry_trace url localPath w) as (evs & -> & Hd & Hlen & Hall).
    rewrite drop_app_length.
    destruct (download_event_moves _ Hd). split_and!; try done.
    by apply download_event_execs.
  - intros cacheAPIURL localPath w. cbv zeta. unfold since.
    rewrite downloadFileWithRetry_resolved.
    destruct (getCacheDownloadURL_record cacheAPIURL w) as (_ & Hrec).
    destruct (http_NewRequest cacheAPIURL) as [e|].
    { rewrite Hrec. simpl. rewrite drop_all. split_and!; try done. by left. }
    destruct Hrec as [Ht0 _].
    destruct ((CacheDownload.getCacheDownloadURL cacheAPIURL w).1.2) as [err|]; simpl.
    { rewrite Ht0, drop_app_length. split_and!; try done.
      right. exists []. split_and!; [done|simpl; lia|constructor]. }
    set (u := (CacheDownload.getCacheDownloadURL cacheAPIURL w).1.1).
    set (w1 := CacheDownload.resolved_world u _).
    destruct (downloadFileWithRetry_trace u localPath w1) as (evs & Ht & Hd & Hlen & Hall).
    simpl in Ht.
    assert (∃ logs, only_logs logs ∧
              trace w1 = trace w ++ [EvHttpGet cacheAPIURL] ++ logs)
      as (logs & Hlogs & Ht1).
    { unfold w1, CacheDownload.resolved_world, when, log_Printf, emit, ret.
      destruct (gIsDebugMode _); simpl.
      - eexists [_]. split; [repeat constructor; by eexists|].
        by rewrite Ht0, <- (assoc (++)).
      - exists []. split; [constructor|]. by rewrite Ht0. }
    destruct (only_logs_observers _ Hlogs) as (_ & Hlr & _).
    rewrite Ht, Ht1, <- !(assoc (++)), drop_app_length.
    assert (Hdall : Forall download_event ([EvHttpGet cacheAPIURL] ++ logs ++ evs)).
    { apply Forall_app. split; [by repeat constructor|].
      apply Forall_app. split; [by apply download_event_logs|done]. }
    destruct (download_event_moves _ Hdall). split_and!; try done.
    + right. exists (requests_of evs). split; [|done].
      rewrite <- ?(assoc (++)), ?drop_app_length.
      change (requests_of ([EvHttpGet cacheAPIURL] ++ logs ++ evs))
        with (cacheAPIURL :: requests_of (logs ++ evs)).
      by rewrite requests_of_app, Hlr.
    + by apply download_event_execs.
Qed.

End RetryFacts.

Section RetryExamples.
Import OS TestLibs Samples.

Lemma retry_success_is_complete_witness :
  ∃ answer resp mode,
    answer ∈ take 2 (net flaky_world) ∧ answer "https://store/archive" = inr resp ∧
    StatusCode resp = 200 ∧ term (Body resp) = io_EOF ∧
    fs (CachePull.downloadFileWithRetry "https://store/archive" "cache.tar" flaky_world).2
      !! "cache.tar" = Some (File (data (Body resp)) mode).
Proof.
  apply (retry_success_is_complete "https://store/archive" "cache.tar" flaky_world).
  vm_compute. reflexivity.
Defined.

End RetryExamples.

(** ** The second main.go: resolving the download URL, and main *)

Section ResolveFacts.
Import OS Observers MainWorlds.
Context `{GoLibs}.

(** X7. [getCacheDownloadURL] returns a URL only with a nil error and an
    error only with the empty URL.  With a nil error the URL is not empty,
    and it is the download URL that [json.Unmarshal] found in the body of an
    answer whose body was read to its end and whose status is 200, 201 or
    202. *)
Theorem getCacheDownloadURL_result (cacheAPIURL : string) (w : World) :
  let g := (CacheDownload.getCacheDownloadURL cacheAPIURL w).1 in
  match g.2 with
  | None =>
      g.1 ≠ "" ∧
      http_NewRequest cacheAPIURL = None ∧
      ∃ resp, (http_Get cacheAPIURL w).1 = inr resp ∧
              term (Body resp) = io_EOF ∧
              200 ≤ StatusCode resp ≤ 202 ∧
              json_Unmarshal_DownloadURL (data (Body resp)) =
                inr (mkGenerateDownloadURLRespModel g.1)
  | Some _ => g.1 = ""
  end.
Proof.
  cbv zeta. unfold CacheDownload.getCacheDownloadURL.
  destruct (http_NewRequest cacheAPIURL) as [e|]; [done|].
  unfold bind, ret, Close.
  destruct (http_Get cacheAPIURL w) as [[err|resp] w1]; [done|]. simpl.
  unfold ioutil_ReadAll.
  destruct (decide (term (Body resp) = io_EOF)) as [Hbody|Hbody]; [|done].
  destruct (decide (StatusCode resp < 200 ∨ StatusCode resp > 202)) as [Hst|Hst]; [done|].
  destruct (json_Unmarshal_DownloadURL (data (Body resp))) as [e|[u]] eqn:Hjson; [done|].
  simpl. destruct (decide (u = "")); [done|]. simpl.
  split_and!; [done..|]. exists resp. split_and!; [done..|lia|lia|done].
Qed.


(** X9. An answer whose body cannot be read to its end is reported as
    such, with the status and with what was read, whatever the status is:
    the check of the status comes after the body, so a 404 with a broken
    body is not "cache not initialised". *)
Theorem getCacheDownloadURL_unread_body
    (cacheAPIURL : string) (w : World) (resp : Response) :
  http_NewRequest cacheAPIURL = None ->
  (http_Get cacheAPIURL w).1 = inr resp ->
  term (Body resp) ≠ io_EOF ->
  (CacheDownload.getCacheDownloadURL cacheAPIURL w).1 =
    ("", Some (fmt_Errorf
       ["Request sent, but failed to read response body (http-code:";
        fmt_d (StatusCode resp); "): "; fmt_bytes (data (Body resp))])).
Proof.
  intros Hreq Hget Hbody. unfold CacheDownload.getCacheDownloadURL. rewrite Hreq.
  unfold bind, ret, Close.
  destruct (http_Get cacheAPIURL w) as [[err|resp'] w1]; simpl in *; simplify_eq.
  unfold ioutil_ReadAll. by rewrite decide_False.
Qed.

(** [main] up to the call of [downloadFileWithRetry], when a URL is set. *)
Lemma main_download (w : World) :
  default "" (environ w !! "cache_api_url") ≠ "" ->
  CacheDownload.main w =
    let d := CacheDownload.downloadFileWithRetry (default "" (environ w !! "cache_api_url"))
               "/tmp/cache-archive.tar" (download_world w) in
    match d.1 with
    | Some err => CacheDownload.log_Fatalf [" [!] Unable to download cache: "; Error err] d.2
    | None =>
        let w1 := set_trace (trace d.2 ++
                    (if gIsDebugMode d.2
                     then [EvLog "=> cacheArchiveFilePath: /tmp/cache-archive.tar"] else []) ++
                    [EvLog "=> Downloading Cache [DONE]";
                     EvLog "=> Uncompressing Cache ..."]) d.2 in
        let u := CacheDownload.uncompressCaches "/tmp/cache-archive.tar" w1 in
        match u.1 with
        | Some err => CacheDownload.log_Fatalf ["Failed to uncompress tar, error: "; Error err] u.2
        | None =>
            (0, set_trace (trace u.2 ++ [EvLog "=> Uncompressing Cache [DONE]";
                                         EvLog "=> Finished"]) u.2)
        end
    end.
Proof.
  intros Hurl. cbv zeta.
  unfold CacheDownload.main, CacheDownload.CreateStepParamsFromEnvs, bind, log_Println,
    emit, os_Getenv, ret, put_gIsDebugMode, get_gIsDebugMode.
  simpl. rewrite decide_False by done.
  destruct (bool_decide (default "" (environ w !! "is_debug_mode") = "true")) eqn:Hdbg;
    unfold when, log_Printf, emit, ret; simpl;
    (match goal with |- context [CacheDownload.downloadFileWithRetry _ _ ?a] =>
       replace a with (download_world w)
         by (unfold download_world; rewrite Hdbg; unfold set_trace, set_gIsDebugMode; simpl;
             by rewrite <- ?(assoc (++)))
     end);
    (destruct (CacheDownload.downloadFileWithRetry _ _ (download_world w)) as [[err|] d];
       simpl; [done|]);
    (destruct (gIsDebugMode d) eqn:Hd; simpl;
     (match goal with |- context [CacheDownload.uncompressCaches _ ?a] =>
        match goal with |- _ = match (CacheDownload.uncompressCaches _ ?b).1 with _ => _ end =>
          replace a with b
            by (unfold set_trace; simpl; rewrite ?Hd; simpl; by rewrite <- ?(assoc (++)))
        end
      end);
     match goal with |- context [CacheDownload.uncompressCaches ?p ?b] =>
       destruct (CacheDownload.uncompressCaches p b) as [[err|] u]; simpl; [done|]
     end;
     unfold set_trace; simpl; by rewrite <- ?(assoc (++))).
Qed.

(** A download leaves the commands of the system as they are. *)
Lemma downloadFile_exec (url localPath : string) (w : World) :
  exec (CachePull.downloadFile url localPath w).2 = exec w.
Proof.
  unfold CachePull.downloadFile, bind, ret, Close, os_Create, http_Get, io_Copy,
    ioutil_ReadAll, log_Printf, bind, emit.
  cbn -[Filepath.Dir is_dir fmt_Sprintf].
  repeat (case_match; simplify_eq; cbn -[Filepath.Dir is_dir fmt_Sprintf] in * ); done.
Qed.

Lemma retry_frame (cacheAPIURL localPath : string) (w : World) :
  let r := CacheDownload.downloadFileWithRetry cacheAPIURL localPath w in
  exec r.2 = exec w ∧
  ∃ evs, trace r.2 = trace w ++ evs ∧ Forall download_event evs.
Proof.
  cbv zeta. rewrite downloadFileWithRetry_resolved.
  pose proof (getCacheDownloadURL_world cacheAPIURL w) as Hw.
  destruct (getCacheDownloadURL_events cacheAPIURL w) as (_ & _ & evs0 & Ht0 & _ & _ & Hevs0).
  assert (Hd0 : Forall download_event evs0).
  { destruct Hevs0 as [->| ->]; by repeat constructor. }
  assert (He0 : exec (CacheDownload.getCacheDownloadURL cacheAPIURL w).2 = exec w).
  { rewrite Hw. destruct (http_NewRequest cacheAPIURL); [done|].
    rewrite http_Get_spec. simpl. by destruct (net w). }
  destruct ((CacheDownload.getCacheDownloadURL cacheAPIURL w).1.2) as [err|]; simpl.
  { split; [done|]. by exists evs0. }
  set (u := (CacheDownload.getCacheDownloadURL cacheAPIURL w).1.1).
  set (w1 := CacheDownload.resolved_world u _).
  assert (exec w1 = exec w ∧ ∃ logs, only_logs logs ∧ trace w1 = trace w ++ evs0 ++ logs)
    as (He1 & logs & Hlogs & Ht1).
  { unfold w1, CacheDownload.resolved_world, when, log_Printf, emit, ret.
    destruct (gIsDebugMode _); simpl; (split; [done|]).
    - eexists [_]. split; [repeat constructor; by eexists|].
      by rewrite Ht0, <- (assoc (++)).
    - exists []. split; [constructor|]. by rewrite Ht0, app_nil_r. }
  pose proof (downloadFileWithRetry_cases u localPath w1) as Hc. simpl in Hc.
  destruct (downloadFileWithRetry_trace u localPath w1) as (evs & Ht & Hd & _).
  simpl in Ht. split.
  - pose proof (downloadFile_exec u localPath w1) as Hf.
    destruct (CachePull.downloadFile u localPath w1) as [[e|] w2]; simpl in *;
      destruct Hc as [-> _]; rewrite ?downloadFile_exec; simpl; by rewrite Hf.
  - exists (evs0 ++ logs ++ evs). rewrite Ht, Ht1, <- !(assoc (++)). split; [done|].
    apply Forall_app. split; [done|]. apply Forall_app. split; [|done].
    by apply download_event_logs.
Qed.

(** X10. Without a cache API URL in the environment [main] ends with
    status 0 after its log lines: no request is made, no file is touched and
    no command is started, and the last line says that there is no cache to
    use. *)
Theorem main_without_url (w : World) :
  default "" (environ w !! "cache_api_url") = "" ->
  let r := CacheDownload.main w in
  r.1 = 0 ∧ fs r.2 = fs w ∧ net r.2 = net w ∧
  (∃ logs, trace r.2 = trace w ++ logs ∧ only_logs logs) ∧
  last (trace r.2) =
    Some (EvLog " (i) No Cache API URL specified, there's no cache to use, exiting.").
Proof.
  intros Hurl. cbv zeta.
  unfold CacheDownload.main, CacheDownload.CreateStepParamsFromEnvs, bind, log_Println,
    emit, os_Getenv, ret, put_gIsDebugMode, get_gIsDebugMode.
  simpl. rewrite decide_True by done.
  destruct (bool_decide (default "" (environ w !! "is_debug_mode") = "true"));
    unfold when, log_Printf, emit, ret; simpl; (split_and!; [done..| |by rewrite last_snoc]);
    eexists; (split; [by rewrite <- !(assoc (++))|]); repeat constructor; by eexists.
Qed.

(** X11. With a cache API URL, [main] starts the tar command only after
    the download returned nil, and then exactly once, on
    /tmp/cache-archive.tar and on the files the download left; the status
    is 0 when tar succeeds and 1 when it fails.  When the download returns
    an error the status is 1, no command is started and the files are as the
    download left them. *)
Theorem main_tar_after_download (w : World) :
  default "" (environ w !! "cache_api_url") ≠ "" ->
  let d := CacheDownload.downloadFileWithRetry (default "" (environ w !! "cache_api_url"))
             "/tmp/cache-archive.tar" (download_world w) in
  let r := CacheDownload.main w in
  let argv := ["tar"; "-xPf"; "/tmp/cache-archive.tar"] in
  match d.1 with
  | Some err =>
      r.1 = 1 ∧ execs_of (since w (trace r.2)) = [] ∧ fs r.2 = fs d.2 ∧
      last (trace r.2) = Some (EvLog (" [!] Unable to download cache: " +:+ Error err))
  | None =>
      let t := exec w "" argv (fs d.2) in
      execs_of (since w (trace r.2)) = [("", argv)] ∧
      fs r.2 = t.2 ∧
      r.1 = match t.1.2 with Some _ => 1 | None => 0 end
  end.
Proof.
  intros Hurl. cbv zeta. rewrite (main_download w Hurl). cbv zeta. unfold since.
  destruct (retry_frame (default "" (environ w !! "cache_api_url"))
              "/tmp/cache-archive.tar" (download_world w)) as (Hexec & evs & Ht & Hd).
  assert (∃ logs, only_logs logs ∧ trace (download_world w) = trace w ++ logs)
    as (logs0 & Hlogs0 & Ht0).
  { unfold download_world. simpl. eexists. split; [|done].
    destruct (bool_decide _); repeat constructor; by eexists. }
  assert (Hw0 : exec (download_world w) = exec w) by done.
  rewrite Ht0 in Ht. rewrite Hw0 in Hexec.
  pose proof (download_event_execs _ Hd) as Hx.
  pose proof (download_event_execs _ (download_event_logs _ Hlogs0)) as Hx0.
  destruct (CacheDownload.downloadFileWithRetry _ _ (download_world w)) as [[err|] d];
    simpl in *.
  - unfold CacheDownload.log_Fatalf, log_Printf, bind, emit, ret. simpl.
    rewrite Ht, <- !(assoc (++)), drop_app_length, !execs_of_app, Hx, Hx0.
    split_and!; [done..|]. by rewrite !(assoc (++)), last_snoc.
  - destruct (gIsDebugMode d) eqn:Hdbg;
      unfold CacheDownload.uncompressCaches, bind, get_gIsDebugMode, run_command, bind, emit,
        when, log_Printf, emit, ret; simpl; rewrite ?Hdbg; simpl; rewrite Hexec;
      destruct (exec w "" ["tar"; "-xPf"; "/tmp/cache-archive.tar"] (fs d)) as [[out [e|]] m];
      unfold CacheDownload.log_Fatalf, log_Printf, bind, emit, ret; simpl;
      rewrite Ht, <- !(assoc (++)), drop_app_length, !execs_of_app, Hx, Hx0; done.
Qed.

End ResolveFacts.

Section MainExamples.
Import OS Observers TestLibs Samples.

Lemma main_without_url_witness :
  (CacheDownload.main empty_world).1 = 0 ∧ net (CacheDownload.main empty_world).2 = [].
Proof.
  destruct (main_without_url empty_world) as (Hexit & _ & Hnet & _); [reflexivity|].
  split; [exact Hexit|exact Hnet].
Defined.

Lemma main_tar_after_download_witness :
  execs_of (since api_ok_world (trace (CacheDownload.main api_ok_world).2)) =
    [("", ["tar"; "-xPf"; "/tmp/cache-archive.tar"])] ∧
  (CacheDownload.main api_ok_world).1 = 0.
Proof.
  pose proof (main_tar_after_download api_ok_world) as Hmain.
  destruct Hmain as (Hexecs & _ & Hexit); [vm_compute; discriminate|].
  split; [exact Hexecs|exact Hexit].
Defined.

Lemma getCacheDownloadURL_unread_body_witness :
  (CacheDownload.getCacheDownloadURL "https://api/cache" api_broken_body_world).1 =
    ("", Some (errors_New
       "Request sent, but failed to read response body (http-code:404): {")).
Proof.
  apply (getCacheDownloadURL_unread_body "https://api/cache" api_broken_body_world
           (mkResponse 404 (mkStream ["{"]%byte (errors_New "unexpected EOF"))));
    [reflexivity|reflexivity|discriminate].
Defined.

End MainExamples.

(** ** The second main.go: more on manual extraction *)

Section ExtractionMore.
Import Filepath OS Observers.
Local Open Scope go_scope.






End ExtractionMore.

Section ExtractionExamples.
Import Filepath OS Observers TestLibs Samples.



End ExtractionExamples.

(** ** The tar command: the first main.go and archive.go *)

Section CommandFacts.
Import Filepath OS Observers.
Context `{GoLibs} `{GoUtils}.

(** X15. When [uncompressCaches] of the first [main.go] returns an error,
    it returns the empty path with it and no cache item was touched: no
    directory was made for an item and no move was tried.  Either the
    temporary directory could not be made, and then no command was started
    and the files are as they were; or the tar command, started once in the
    temporary directory, failed, and the files are as tar left them, with
    the temporary directory still there. *)
Theorem uncompressCaches_error_places_nothing
    (cacheFilePath : string) (cacheInfo : CacheInfosModel) (w : World) :
  let r := CachePull.uncompressCaches cacheFilePath cacheInfo w in
  let evs := since w (trace r.2) in
  is_Some r.1.2 ->
  r.1.1 = "" ∧ mkdirs_of evs = [] ∧ renames_of evs = [] ∧
  match (NormalizedOSTempDirPath "" w).1 with
  | inl _ => execs_of evs = [] ∧ fs r.2 = fs w
  | inr tmp =>
      execs_of evs = [(tmp, ["tar"; "-xvzf"; cacheFilePath])] ∧
      fs r.2 = (exec w tmp ["tar"; "-xvzf"; cacheFilePath]
                  (<[tmp := Directory]> (fs w))).2
  end.
Proof.
  cbv zeta. unfold since.
  unfold CachePull.uncompressCaches, NormalizedOSTempDirPath, bind, get_gIsDebugMode,
    run_command, bind, emit.
  cbn -[for_range].
  destruct (tmp_names w) as [|n rest]; cbn -[for_range].
  { intros _. by rewrite drop_app_length. }
  set (tmp := "/tmp/" +:+ "" +:+ n).
  destruct (gIsDebugMode w); unfold when, log_Printf, emit, ret; cbn -[for_range];
    (destruct (exec w tmp ["tar"; "-xvzf"; cacheFilePath] (<[tmp := Directory]> (fs w)))
       as [[out [e|]] m]; cbn -[for_range];
     [intros _; by rewrite <- !(assoc (++)), drop_app_length|]);
    match goal with |- context [for_range ?l ?f ?w2] =>
      destruct (for_range l f w2) as [[] w3]
    end; cbn; by intros [? ?].
Qed.

(** X16. [uncompressArchive] of archive.go and [uncompressCaches] of the
    second [main.go] run the same command, tar -xPf on the archive, once,
    and leave the same files; they succeed and fail together.
    [uncompressArchive] writes no log line.  They differ in what the error
    says: [uncompressArchive] reports the output of the command when the
    command ran and ended with a failure status, and the error of the
    system otherwise; [uncompressCaches] always reports the error, and
    logs the output. *)
Theorem uncompressArchive_like_uncompressCaches (pth : string) (w : World) :
  let a := ArchiveCommands.uncompressArchive pth w in
  let c := CacheDownload.uncompressCaches pth w in
  let argv := ["tar"; "-xPf"; pth] in
  since w (trace a.2) = [EvExec "" argv] ∧
  execs_of (since w (trace c.2)) = [("", argv)] ∧
  fs a.2 = fs c.2 ∧
  match (exec w "" argv (fs w)).1 with
  | (out, Some err) =>
      a.1 = Some (fmt_Errorf [PrintableCommandArgs argv; " failed: ";
                              if IsExitStatusError err then out else Error err]) ∧
      c.1 = Some (fmt_Errorf ["Failed to uncompress cache archive, error was: "; Error err]) ∧
      last (trace c.2) = Some (EvLog (fmt_Sprintf
        [" [!] Failed to uncompress cache archive, full output (stdout & stderr) was: "; out]))
  | (_, None) => a.1 = None ∧ c.1 = None
  end.
Proof.
  cbv zeta. unfold since.
  unfold ArchiveCommands.uncompressArchive, CacheDownload.uncompressCaches, bind,
    get_gIsDebugMode, run_command, bind, emit.
  cbn -[fmt_Sprintf fmt_Errorf].
  destruct (gIsDebugMode w); unfold when, log_Printf, emit, ret; cbn -[fmt_Sprintf fmt_Errorf];
    destruct (exec w "" ["tar"; "-xPf"; pth] (fs w)) as [[out [e|]] m];
    cbn -[fmt_Sprintf fmt_Errorf];
    rewrite <- ?(assoc (++)), !drop_app_length; split_and!; try done;
    by rewrite ?(assoc (++)), last_snoc.
Qed.

End CommandFacts.

Section CommandExamples.
Import OS Observers TestLibs Samples.

Lemma uncompressCaches_error_places_nothing_witness :
  let r := CachePull.uncompressCaches "/tmp/cache.tar.gz" one_item tar_fails_world in
  r.1.1 = "" ∧ mkdirs_of (since tar_fails_world (trace r.2)) = [] ∧
  fs r.2 !! "/tmp/cache" = Some Directory.
Proof.
  cbv zeta.
  destruct (uncompressCaches_error_places_nothing "/tmp/cache.tar.gz" one_item
              tar_fails_world) as (Hpath & Hmk & _ & _ & Hfs);
    [vm_compute; by eexists|].
  split_and!; [exact Hpath|exact Hmk|]. rewrite Hfs. reflexivity.
Defined.

End CommandExamples.
